(** * Webhook shipping plugin: excluded shipping methods

    A shallow embedding of [saleor/plugins/webhook/shipping.py] and the
    properties of its exclusion pipeline: the defensive parser of webhook
    responses, the payload-checked cache in front of the webhook fan-out, and
    the merge of fetched exclusions with the ones of previous plugins.

    Conventions of the embedding.
    - A Python [str] is a [string] holding its UTF-8 bytes, so [str.encode]
      and [bytes.decode("utf-8")] are the identity on the representation.
    - Values decoded from JSON are [pyval]; JSON numbers are integers here.
    - A raised exception is the [Raise] arm of [result]; effects on the cache
      and calls to collaborators are threaded through [World]. *)

From Stdlib Require Import ZArith String Ascii List Lia DecimalString DecimalPos
  DecimalZ.
From stdpp Require Import gmap strings list.

Local Open Scope string_scope.
Local Open Scope list_scope.

(** ** Python values and exceptions *)

Inductive exn : Type :=
| KeyError
| ValueError
| TypeError
| AttributeError.

Inductive result (A : Type) : Type :=
| Ok (a : A)
| Raise (e : exn).
Arguments Ok {A} a.
Arguments Raise {A} e.

#[global] Instance result_ret : MRet result := fun _ a => Ok a.
#[global] Instance result_bind : MBind result := fun _ _ f r =>
  match r with
  | Ok a => f a
  | Raise e => Raise e
  end.

Definition is_ok {A} (r : result A) : bool :=
  match r with Ok _ => true | Raise _ => false end.

#[warnings="-register-all"]
Inductive pyval : Type :=
| PNone
| PBool (b : bool)
| PInt (z : Z)
| PStr (s : string)
| PList (l : list pyval)
| PDict (d : list (string * pyval)).

(** [bool(v)]: what [if v:] tests. *)
Definition truthy (v : pyval) : bool :=
  match v with
  | PNone => false
  | PBool b => b
  | PInt z => negb (Z.eqb z 0)
  | PStr s => negb (String.eqb s "")
  | PList l => match l with [] => false | _ => true end
  | PDict d => match d with [] => false | _ => true end
  end.

(** A [dict] decoded from JSON keeps one binding per key, in document order. *)
Fixpoint assoc (k : string) (d : list (string * pyval)) : option pyval :=
  match d with
  | [] => None
  | (k', v) :: d' => if String.eqb k' k then Some v else assoc k d'
  end.

(** [v[key]] for a string key. *)
Definition py_getitem (v : pyval) (key : string) : result pyval :=
  match v with
  | PDict d => match assoc key d with Some x => Ok x | None => Raise KeyError end
  | _ => Raise TypeError
  end.

(** [v.get(key, dflt)]: only a [dict] has the method. *)
Definition py_get (v : pyval) (key : string) (dflt : pyval) : result pyval :=
  match v with
  | PDict d => Ok (default dflt (assoc key d))
  | _ => Raise AttributeError
  end.

(** [for x in v]: lists give their items, a dict its keys, a string its
    one-character strings; nothing else is iterable. *)
Definition py_iter (v : pyval) : result (list pyval) :=
  match v with
  | PList l => Ok l
  | PDict d => Ok (map (fun kv => PStr (fst kv)) d)
  | PStr s => Ok (map (fun c => PStr (String c "")) (list_ascii_of_string s))
  | _ => Raise TypeError
  end.

(** [sep.join(items)]: every item has to be a [str]. *)
Fixpoint py_strings (items : list pyval) : result (list string) :=
  match items with
  | [] => Ok []
  | PStr s :: rest => ss ← py_strings rest; Ok (s :: ss)
  | _ :: _ => Raise TypeError
  end.

Definition py_join (sep : string) (items : list pyval) : result string :=
  ss ← py_strings items; Ok (String.concat sep ss).

(** [str(z)] for an [int]. *)
Definition str_of_int (z : Z) : string := NilZero.string_of_int (Z.to_int z).

(** ** Base64, as [base64.b64encode] *)

Module Base64.

Definition alphabet : string :=
  "ABCDEFGHIJKLMNOPQRSTUVWXYZabcdefghijklmnopqrstuvwxyz0123456789+/".

Definition pad : ascii := "="%char.

Definition digit (n : N) : ascii :=
  default pad (String.get (N.to_nat n) alphabet).

Fixpoint encode_bytes (l : list ascii) : string :=
  match l with
  | [] => ""
  | [a] =>
      let x := N_of_ascii a in
      String (digit (x / 4)) (String (digit (x mod 4 * 16))
        (String pad (String pad "")))
  | [a; b] =>
      let x := N_of_ascii a in
      let y := N_of_ascii b in
      String (digit (x / 4)) (String (digit (x mod 4 * 16 + y / 16))
        (String (digit (y mod 16 * 4)) (String pad "")))
  | a :: b :: c :: rest =>
      let x := N_of_ascii a in
      let y := N_of_ascii b in
      let z := N_of_ascii c in
      String (digit (x / 4)) (String (digit (x mod 4 * 16 + y / 16))
        (String (digit (y mod 16 * 4 + z / 64)) (String (digit (z mod 64))
          (encode_bytes rest))))
  end%N.

Definition b64encode (s : string) : string :=
  encode_bytes (list_ascii_of_string s).

Fixpoint index_from (n : N) (c : ascii) (s : string) : option N :=
  match s with
  | EmptyString => None
  | String c' s' => if Ascii.eqb c' c then Some n else index_from (N.succ n) c s'
  end.

Definition value (c : ascii) : option N := index_from 0 c alphabet.

(** A strict decoder: whole quadruples, padding only at the end. *)
Fixpoint decode_chars (l : list ascii) : option (list ascii) :=
  match l with
  | [] => Some []
  | a :: b :: c :: d :: rest =>
      x ← value a; y ← value b;
      if Ascii.eqb d pad then
        match rest with
        | [] =>
            if Ascii.eqb c pad then Some [ascii_of_N (x * 4 + y / 16)]
            else
              z ← value c;
              Some [ascii_of_N (x * 4 + y / 16);
                    ascii_of_N (y mod 16 * 16 + z / 4)]
        | _ :: _ => None
        end
      else
        z ← value c; w ← value d; tl ← decode_chars rest;
        Some (ascii_of_N (x * 4 + y / 16)
              :: ascii_of_N (y mod 16 * 16 + z / 4)
              :: ascii_of_N (z mod 4 * 64 + w) :: tl)
  | _ => None
  end%N.

Definition b64decode (s : string) : option string :=
  string_of_list_ascii <$> decode_chars (list_ascii_of_string s).

End Base64.

(** The text before and after the first colon: [s.split(":", 1)] unpacked
    into two names, which fails when there is no colon. *)
Fixpoint split_colon (s : string) : option (string * string) :=
  match s with
  | EmptyString => None
  | String c s' =>
      if Ascii.eqb c ":"%char then Some ("", s')
      else '(t, i) ← split_colon s'; Some (String c t, i)
  end.

(** A global-id codec in the manner of graphql-relay: base64 of
    [type:id].  The theorems below hold for any codec; this one serves the
    concrete examples. *)
Definition relay_from_global_id (token : string) : option (string * string) :=
  Base64.b64decode token ≫= split_colon.

Definition relay_to_global_id (typename _id : string) : string :=
  Base64.b64encode (typename +:+ ":" +:+ _id).

(** ** Data model *)

(** [App]: the registered application; only its primary key is read. *)
Record App : Type := { pk : Z }.

(** [Webhook]: the subscription of an app to an event. *)
Record Webhook : Type := { app : App }.

(** The dictionary [{"id": method_id, "reason": ...}] built by
    [get_excluded_shipping_methods_from_response] and kept in the cache: both
    keys are always there, so [d["id"]] and [d.get("reason", "")] read a
    field.  The reason is whatever JSON value the webhook sent. *)
Module RawExclusion.
Record t : Type := mk { id : string; reason : pyval }.
End RawExclusion.

(** The dataclass [ExcludedShippingMethod(id, reason)] of [base_plugin]; the
    annotation of [reason] is [Optional[str]], the value at run time is
    whatever was put there. *)
Module ExcludedShippingMethod.
Record t : Type := mk { id : string; reason : pyval }.
End ExcludedShippingMethod.

Abbreviation ESM := ExcludedShippingMethod.t.

(** [Dict[str, List[ExcludedShippingMethod]]]: a [defaultdict(list)], which
    iterates in insertion order. *)
Definition methods_map : Type := list (string * list ESM).

(** [d[k].append(v)] on a [defaultdict(list)]: the bucket of a known key
    grows in place, a new key goes last. *)
Fixpoint dict_append (k : string) (v : ESM) (d : methods_map) : methods_map :=
  match d with
  | [] => [(k, [v])]
  | (k', vs) :: d' =>
      if String.eqb k' k then (k', vs ++ [v]) :: d'
      else (k', vs) :: dict_append k v d'
  end.

Definition keys (d : methods_map) : list string := map fst d.

Definition bucket (k : string) (d : methods_map) : list ESM :=
  match List.find (fun kv => String.eqb (fst kv) k) d with
  | Some kv => snd kv
  | None => []
  end.

(** What is stored under a cache key: [(payload, excluded_methods)]. *)
Abbreviation cache_entry := (string * list RawExclusion.t)%type.

(** The calls that leave the process, in the order they happen. *)
Inductive Event : Type :=
| PayloadFun (payload : string)
| CacheGet (key : string)
| CacheSet (key : string) (value : cache_entry) (timeout : Z)
| TriggerWebhookSync (event_type payload : string) (target : App)
    (timeout : Z) (response : pyval).

Record World : Type := {
  cache : gmap string cache_entry;
  trace : list Event
}.

Definition log (e : Event) (w : World) : World :=
  {| cache := cache w; trace := trace w ++ [e] |}.

(** Computations that may raise and that act on the world. *)
Definition M (A : Type) : Type := World -> result A * World.

#[global] Instance M_ret : MRet M := fun _ a w => (Ok a, w).
#[global] Instance M_bind : MBind M := fun _ _ f m w =>
  match m w with
  | (Ok a, w') => f a w'
  | (Raise e, w') => (Raise e, w')
  end.

Definition lift {A} (r : result A) : M A := fun w => (r, w).

(** The collaborators the module imports.
    - [from_global_id]: [graphene.Node.from_global_id] on a [str]; [None]
      stands for the [ValueError] or [TypeError] it raises on a token it
      cannot decode.
    - [_get_webhooks_for_event]: the registry, in its order.
    - [webhook_response]: what the invoker answers, given everything that
      happened so far and the arguments of the call.
    - the two constants of [const].
    - [Money]: the constructor of [prices.Money], which may reject its
      arguments; [repr_container]: [str()] of a list or a dict. *)
Class Collaborators : Type := {
  from_global_id : string -> option (string * string);
  _get_webhooks_for_event : string -> list Webhook;
  webhook_response : World -> string -> string -> App -> Z -> pyval;
  CACHE_EXCLUDED_SHIPPING_TIME : Z;
  EXCLUDED_SHIPPING_REQUEST_TIMEOUT : Z;
  money : Type;
  Money : pyval -> pyval -> result money;
  repr_container : pyval -> string
}.

(** Modelled from the spec: the constant [APP_ID_PREFIX] of [utils], which is
    not among the sources; app-scoped ids carry the type tag [app]. *)
Definition APP_ID_PREFIX : string := "app".

(** The dataclass [ShippingMethodData], with the four fields set here. *)
Record ShippingMethodData `{Collaborators} : Type := {
  sm_id : string;
  sm_name : pyval;
  sm_price : money;
  sm_maximum_delivery_days : pyval
}.

Section Shipping.
Context `{Collaborators}.

(** ** Cache and invoker *)

Definition cache_get (key : string) : M (option cache_entry) :=
  fun w => (Ok (cache w !! key), log (CacheGet key) w).

Definition cache_set (key : string) (value : cache_entry) (timeout : Z)
  : M unit :=
  fun w => (Ok tt, log (CacheSet key value timeout)
                     {| cache := <[key := value]> (cache w); trace := trace w |}).

Definition trigger_webhook_sync (event_type payload : string) (target : App)
    (timeout : Z) : M pyval :=
  fun w =>
    let response := webhook_response w event_type payload target timeout in
    (Ok response,
     log (TriggerWebhookSync event_type payload target timeout response) w).

Definition call_payload_fun (payload_fun : World -> string) : M string :=
  fun w => let payload := payload_fun w in (Ok payload, log (PayloadFun payload) w).

(** ** [to_shipping_app_id], [parse_list_shipping_methods_response] *)

(** [f"{v}"]. *)
Definition format_value (v : pyval) : string :=
  match v with
  | PNone => "None"
  | PBool true => "True"
  | PBool false => "False"
  | PInt z => str_of_int z
  | PStr s => s
  | PList _ | PDict _ => repr_container v
  end.

Definition to_shipping_app_id (a : App) (shipping_method_id : pyval) : string :=
  Base64.b64encode
    (APP_ID_PREFIX +:+ ":" +:+ str_of_int (pk a) +:+ ":"
       +:+ format_value shipping_method_id).

(** The body of the loop: one record of the response. *)
Definition shipping_method_of (a : App) (shipping_method_data : pyval)
  : result ShippingMethodData :=
  method_id ← py_get shipping_method_data "id" PNone;
  method_name ← py_get shipping_method_data "name" PNone;
  method_amount ← py_get shipping_method_data "amount" PNone;
  method_currency ← py_get shipping_method_data "currency" PNone;
  method_maximum_delivery_days ←
    py_get shipping_method_data "maximum_delivery_days" PNone;
  price ← Money method_amount method_currency;
  Ok {| sm_id := to_shipping_app_id a method_id;
        sm_name := method_name;
        sm_price := price;
        sm_maximum_delivery_days := method_maximum_delivery_days |}.

Fixpoint list_shipping_methods_loop (a : App) (items : list pyval)
    (shipping_methods : list ShippingMethodData)
  : result (list ShippingMethodData) :=
  match items with
  | [] => Ok shipping_methods
  | shipping_method_data :: rest =>
      m ← shipping_method_of a shipping_method_data;
      list_shipping_methods_loop a rest (shipping_methods ++ [m])
  end.

Definition parse_list_shipping_methods_response (response_data : pyval)
    (a : App) : result (list ShippingMethodData) :=
  items ← py_iter response_data;
  list_shipping_methods_loop a items [].

(** ** [get_excluded_shipping_methods_from_response] *)

(** The exceptions named by the [except] clause. *)
Definition caught (e : exn) : bool :=
  match e with
  | KeyError | ValueError | TypeError => true
  | AttributeError => false
  end.

(** The [try] block: [Ok (Some method_id)] when it falls through to the
    append, [Ok None] when the type is not a known one (a warning, then
    [continue]). *)
Definition try_method_id (method_data : pyval) : result (option string) :=
  raw_id ← py_getitem method_data "id";
  match raw_id with
  | PStr token =>
      match from_global_id token with
      | None => Raise ValueError
      | Some (typename, _id) =>
          if String.eqb typename "app" then Ok (Some token)
          else if String.eqb typename "ShippingMethod" then Ok (Some _id)
          else Ok None
      end
  | _ => Raise TypeError
  end.

Fixpoint excluded_methods_loop (items : list pyval)
    (excluded_methods : list RawExclusion.t) : result (list RawExclusion.t) :=
  match items with
  | [] => Ok excluded_methods
  | method_data :: rest =>
      match try_method_id method_data with
      | Raise e =>
          if caught e then excluded_methods_loop rest excluded_methods
          else Raise e
      | Ok None => excluded_methods_loop rest excluded_methods
      | Ok (Some method_id) =>
          reason ← py_get method_data "reason" (PStr "");
          excluded_methods_loop rest
            (excluded_methods ++ [RawExclusion.mk method_id reason])
      end
  end.

Definition get_excluded_shipping_methods_from_response (response_data : pyval)
  : result (list RawExclusion.t) :=
  entries ← py_get response_data "excluded_methods" (PList []);
  items ← py_iter entries;
  excluded_methods_loop items [].

(** ** [parse_excluded_shipping_methods] *)

Definition parse_excluded_shipping_methods
    (excluded_methods : list RawExclusion.t) : methods_map :=
  fold_left
    (fun excluded_methods_map excluded_method =>
       let method_id := RawExclusion.id excluded_method in
       dict_append method_id
         (ExcludedShippingMethod.mk method_id
            (RawExclusion.reason excluded_method))
         excluded_methods_map)
    excluded_methods [].

(** ** [get_excluded_shipping_methods_or_fetch] *)

(** The loop over the webhooks. *)
Fixpoint gather_responses (webhooks : list Webhook)
    (event_type payload : string) (excluded_methods : list RawExclusion.t)
  : M (list RawExclusion.t) :=
  match webhooks with
  | [] => mret excluded_methods
  | webhook :: rest =>
      response_data ← trigger_webhook_sync event_type payload (app webhook)
                        EXCLUDED_SHIPPING_REQUEST_TIMEOUT;
      if truthy response_data then
        more ← lift (get_excluded_shipping_methods_from_response response_data);
        gather_responses rest event_type payload (excluded_methods ++ more)
      else gather_responses rest event_type payload excluded_methods
  end.

Definition fetch_from_webhooks (webhooks : list Webhook)
    (event_type payload cache_key : string) : M methods_map :=
  excluded_methods ← gather_responses webhooks event_type payload [];
  _ ← cache_set cache_key (payload, excluded_methods)
        CACHE_EXCLUDED_SHIPPING_TIME;
  mret (parse_excluded_shipping_methods excluded_methods).

Definition get_excluded_shipping_methods_or_fetch (webhooks : list Webhook)
    (event_type payload cache_key : string) : M methods_map :=
  cached_data ← cache_get cache_key;
  match cached_data with
  | Some (cached_payload, excluded_shipping_methods) =>
      if String.eqb payload cached_payload
      then mret (parse_excluded_shipping_methods excluded_shipping_methods)
      else fetch_from_webhooks webhooks event_type payload cache_key
  | None => fetch_from_webhooks webhooks event_type payload cache_key
  end.

(** ** [get_excluded_shipping_data] *)

(** "Gather responses for previous plugins". *)
Definition gather_previous (excluded_methods_map : methods_map)
    (previous_value : list ESM) : methods_map :=
  fold_left
    (fun m method => dict_append (ExcludedShippingMethod.id method) method m)
    previous_value excluded_methods_map.

(** The reason of one bucket. *)
Definition merged_reason (methods : list ESM) : result pyval :=
  let reasons :=
    List.filter truthy (map ExcludedShippingMethod.reason methods) in
  match reasons with
  | [] => Ok PNone
  | _ :: _ => s ← py_join " " reasons; Ok (PStr s)
  end.

(** "Return a list of excluded methods, unique by id". *)
Fixpoint unique_by_id (items : methods_map) (excluded_methods : list ESM)
  : result (list ESM) :=
  match items with
  | [] => Ok excluded_methods
  | (method_id, methods) :: rest =>
      reason ← merged_reason methods;
      unique_by_id rest
        (excluded_methods ++ [ExcludedShippingMethod.mk method_id reason])
  end.

(** Lines 110 to 121: from the map of the fetched methods to the answer. *)
Definition merge_excluded (excluded_methods_map : methods_map)
    (previous_value : list ESM) : result (list ESM) :=
  unique_by_id (gather_previous excluded_methods_map previous_value) [].

Definition get_excluded_shipping_data (event_type : string)
    (previous_value : list ESM) (payload_fun : World -> string)
    (cache_key : string) : M (list ESM) :=
  let webhooks := _get_webhooks_for_event event_type in
  excluded_methods_map ←
    match webhooks with
    | [] => mret []
    | _ :: _ =>
        payload ← call_payload_fun payload_fun;
        get_excluded_shipping_methods_or_fetch webhooks event_type payload
          cache_key
    end;
  lift (merge_excluded excluded_methods_map previous_value).

End Shipping.

(** ** The specification's vocabulary *)

Section Vocabulary.
Context `{Collaborators}.

(** [ResponseParser.parse] in the words of the specification: the id has to
    decode into a type tag and a raw id; an [app] tag keeps the token, a
    [ShippingMethod] tag keeps the raw id, anything else drops the entry;
    the reason is the empty string when absent. *)
Definition ResponseParser_parse (entry : pyval) : option RawExclusion.t :=
  match entry with
  | PDict d =>
      let reason :=
        match assoc "reason" d with Some r => r | None => PStr "" end in
      match assoc "id" d with
      | Some (PStr token) =>
          match from_global_id token with
          | Some (typeTag, rawId) =>
              if decide (typeTag = "app")
              then Some (RawExclusion.mk token reason)
              else if decide (typeTag = "ShippingMethod")
              then Some (RawExclusion.mk rawId reason)
              else None
          | None => None
          end
      | _ => None
      end
  | _ => None
  end.

(** The entries the specification wants dropped. *)
Inductive malformed_entry : pyval -> Prop :=
| not_a_mapping v :
    (forall d, v <> PDict d) -> malformed_entry v
| missing_id d :
    assoc "id" d = None -> malformed_entry (PDict d)
| id_not_text d v :
    assoc "id" d = Some v -> (forall token, v <> PStr token) ->
    malformed_entry (PDict d)
| id_not_decoded d token :
    assoc "id" d = Some (PStr token) -> from_global_id token = None ->
    malformed_entry (PDict d)
| unknown_type_tag d token typeTag rawId :
    assoc "id" d = Some (PStr token) ->
    from_global_id token = Some (typeTag, rawId) ->
    typeTag <> "app" -> typeTag <> "ShippingMethod" ->
    malformed_entry (PDict d).

(** A response body of the shape of the interface: a mapping whose
    [excluded_methods], when there, can be iterated; or a falsy value. *)
Definition well_shaped (response : pyval) : bool :=
  match response with
  | PDict d =>
      match assoc "excluded_methods" d with
      | None | Some (PList _) | Some (PDict _) | Some (PStr _) => true
      | Some _ => false
      end
  | _ => negb (truthy response)
  end.

(** What one response adds to the raw list. *)
Definition contribution (response : pyval) : list RawExclusion.t :=
  if truthy response then
    match get_excluded_shipping_methods_from_response response with
    | Ok l => l
    | Raise _ => []
    end
  else [].

End Vocabulary.

(** The reason annotated [Optional[str]]. *)
Definition reason_typed (v : pyval) : bool :=
  match v with
  | PNone | PStr _ => true
  | _ => false
  end.

Definition methods_typed (methods : list ESM) : Prop :=
  Forall (fun m => reason_typed (ExcludedShippingMethod.reason m) = true) methods.

Definition map_typed (d : methods_map) : Prop :=
  Forall (fun kv => methods_typed (snd kv)) d.

(** The non-empty reason strings of a bucket, in bucket order. *)
Definition nonempty_reasons (methods : list ESM) : list string :=
  omap (fun m =>
          match ExcludedShippingMethod.reason m with
          | PStr s => if decide (s = "") then None else Some s
          | _ => None
          end) methods.

(** The final reason in the words of the specification. *)
Definition spec_final_reason (methods : list ESM) : pyval :=
  match nonempty_reasons methods with
  | [] => PNone
  | ss => PStr (String.concat " " ss)
  end.

(** The ids of [l] that are not in [seen], each once, where first met. *)
Fixpoint first_seen (seen l : list string) : list string :=
  match l with
  | [] => []
  | x :: l' =>
      if bool_decide (x ∈ seen) then first_seen seen l'
      else x :: first_seen (x :: seen) l'
  end.

Definition ids (methods : list ESM) : list string :=
  map ExcludedShippingMethod.id methods.

Definition with_id (k : string) (methods : list ESM) : list ESM :=
  List.filter (fun m => String.eqb (ExcludedShippingMethod.id m) k) methods.

(** Counting in a trace. *)
Definition is_webhook_call (e : Event) : bool :=
  match e with TriggerWebhookSync _ _ _ _ _ => true | _ => false end.

Definition is_cache_write (e : Event) : bool :=
  match e with CacheSet _ _ _ => true | _ => false end.

Definition is_payload_call (e : Event) : bool :=
  match e with PayloadFun _ => true | _ => false end.

Definition webhook_calls (t : list Event) : nat :=
  length (List.filter is_webhook_call t).

Definition cache_writes (t : list Event) : nat :=
  length (List.filter is_cache_write t).

Definition payload_calls (t : list Event) : nat :=
  length (List.filter is_payload_call t).

(** No colon in a text. *)
Fixpoint colon_free (s : string) : bool :=
  match s with
  | EmptyString => true
  | String c s' => negb (Ascii.eqb c ":"%char) && colon_free s'
  end.

(** The value under [id] that [parse_list_shipping_methods_response] reads
    from a record: [None] when the key is not there. *)
Definition record_id (shipping_method_data : pyval) : pyval :=
  match shipping_method_data with
  | PDict d => default PNone (assoc "id" d)
  | _ => PNone
  end.

(** A reason that [join] accepts: a falsy one is filtered out before, a
    truthy one has to be a text. *)
Definition joinable (m : ESM) : Prop :=
  truthy (ExcludedShippingMethod.reason m) = true ->
  exists s, ExcludedShippingMethod.reason m = PStr s.

(** All the methods held by a map, bucket after bucket. *)
Definition all_methods (d : methods_map) : list ESM := concat (map snd d).

(** ** A concrete installation, for the examples *)

Module Demo.

(** Opaque app tokens of the examples, next to the relay tokens. *)
Definition codec (token : string) : option (string * string) :=
  if String.eqb token "APP_9" then Some ("app", "9")
  else relay_from_global_id token.

(** Stands for [prices.Money] on the amounts of the examples: an integer
    amount is accepted as [Decimal(int)], [None] is refused as [Decimal(None)]
    is. *)
Definition money_of (amount currency : pyval) : result (Z * pyval) :=
  match amount with
  | PInt z => Ok (z, currency)
  | _ => Raise TypeError
  end.

Definition with_webhooks (hooks : list Webhook) (respond : App -> pyval)
  : Collaborators :=
  {| from_global_id := codec;
     _get_webhooks_for_event := fun _ => hooks;
     webhook_response := fun _ _ _ a _ => respond a;
     CACHE_EXCLUDED_SHIPPING_TIME := 180;
     EXCLUDED_SHIPPING_REQUEST_TIMEOUT := 2;
     money := Z * pyval;
     Money := money_of;
     repr_container := fun _ => "" |}.

Definition app1 : App := {| pk := 1 |}.
Definition app2 : App := {| pk := 2 |}.
Definition W1 : Webhook := {| app := app1 |}.
Definition W2 : Webhook := {| app := app2 |}.

Definition response_of (entries : list pyval) : pyval :=
  PDict [("excluded_methods", PList entries)].

Definition entry (token reason : string) : pyval :=
  PDict [("id", PStr token); ("reason", PStr reason)].

(** W1 excludes shipping method 5, W2 excludes the app method [APP_9]. *)
Definition scenario_respond (a : App) : pyval :=
  if Z.eqb (pk a) 1
  then response_of [entry (relay_to_global_id "ShippingMethod" "5") "too heavy"]
  else response_of [entry "APP_9" "restricted region"].

Definition scenario : Collaborators := with_webhooks [W1; W2] scenario_respond.

(** Every webhook fails. *)
Definition all_down : Collaborators := with_webhooks [W1; W2] (fun _ => PNone).

(** Nobody subscribed. *)
Definition no_subscribers : Collaborators := with_webhooks [] (fun _ => PNone).

(** W1 answers with a null list of methods. *)
Definition null_methods_respond (a : App) : pyval :=
  if Z.eqb (pk a) 1 then PDict [("excluded_methods", PNone)]
  else response_of [entry "APP_9" "restricted region"].

Definition null_methods : Collaborators :=
  with_webhooks [W1; W2] null_methods_respond.

Definition empty_world : World := {| cache := ∅; trace := [] |}.

Definition ESM_of (i : string) (r : pyval) : ESM := ExcludedShippingMethod.mk i r.

End Demo.

(** * Properties *)

(** ** The response parser *)

Section ParserFacts.
Context `{Collaborators}.

Lemma try_method_id_parse method_data :
  match try_method_id method_data with
  | Ok (Some method_id) =>
      exists d, method_data = PDict d /\
        ResponseParser_parse method_data
        = Some (RawExclusion.mk method_id
                  (default (PStr "") (assoc "reason" d)))
  | Ok None => ResponseParser_parse method_data = None
  | Raise e => caught e = true /\ ResponseParser_parse method_data = None
  end.
Proof.
  unfold try_method_id, mbind, result_bind, py_getitem.
  destruct method_data as [|b|z|s|l|d]; simpl; try (split; reflexivity).
  destruct (assoc "id" d) as [[|b|z|token|l|d']|]; simpl;
    try (split; reflexivity).
  destruct (from_global_id token) as [[typename _id]|]; simpl;
    [|split; reflexivity].
  destruct (String.eqb_spec typename "app") as [->|Happ].
  { exists d. split; [reflexivity|].
    rewrite decide_True by reflexivity. by destruct (assoc "reason" d). }
  destruct (String.eqb_spec typename "ShippingMethod") as [->|Hsm].
  { exists d. split; [reflexivity|].
    rewrite decide_False by done. rewrite decide_True by reflexivity.
    by destruct (assoc "reason" d). }
  by rewrite !decide_False.
Qed.

Lemma excluded_methods_loop_parse items excluded_methods :
  excluded_methods_loop items excluded_methods
  = Ok (excluded_methods ++ omap ResponseParser_parse items).
Proof.
  revert excluded_methods.
  induction items as [|method_data rest IH]; intros acc; simpl.
  { by rewrite app_nil_r. }
  pose proof (try_method_id_parse method_data) as Htry.
  destruct (try_method_id method_data) as [[method_id|]|e].
  - destruct Htry as (d & -> & Hparse). rewrite Hparse. simpl.
    rewrite IH, <- app_assoc. reflexivity.
  - rewrite Htry. apply IH.
  - destruct Htry as [-> ->]. apply IH.
Qed.

Lemma from_response_list d entries :
  default (PList []) (assoc "excluded_methods" d) = PList entries ->
  get_excluded_shipping_methods_from_response (PDict d)
  = Ok (omap ResponseParser_parse entries).
Proof.
  intros Hentries. unfold get_excluded_shipping_methods_from_response.
  simpl. rewrite Hentries. simpl. apply excluded_methods_loop_parse.
Qed.

Lemma parse_of_text s : ResponseParser_parse (PStr s) = None.
Proof. reflexivity. Qed.

Lemma malformed_entry_parse entry :
  malformed_entry entry -> ResponseParser_parse entry = None.
Proof.
  intros [v Hv|d Hid|d v Hid Hv|d token Hid Hdec
         |d token typeTag rawId Hid Hdec Happ Hsm]; simpl.
  - destruct v; try reflexivity. by destruct (Hv d).
  - by rewrite Hid.
  - rewrite Hid. destruct v; try reflexivity. by destruct (Hv s).
  - by rewrite Hid, Hdec.
  - rewrite Hid, Hdec. by rewrite !decide_False.
Qed.

Lemma omap_kept {A B} (f : A -> option B) (l : list A) :
  Forall2 (fun e r => f e = Some r)
    (filter (fun e => is_Some (f e)) l) (omap f l).
Proof.
  induction l as [|x l IH]; csimpl; [constructor|].
  destruct (f x) as [y|] eqn:Hx; csimpl.
  - rewrite filter_cons_True by (rewrite Hx; eauto). by constructor.
  - rewrite filter_cons_False by (rewrite Hx; by intros [? ?]). exact IH.
Qed.

Lemma length_omap_le {A B} (f : A -> option B) (l : list A) :
  length (omap f l) <= length l.
Proof.
  induction l as [|x l IH]; csimpl; [lia|].
  destruct (f x); csimpl; lia.
Qed.

Lemma parse_reason entry r :
  ResponseParser_parse entry = Some r ->
  exists d, entry = PDict d /\ RawExclusion.reason r
    = match assoc "reason" d with Some v => v | None => PStr "" end.
Proof.
  destruct entry as [|b|z|s|l|d]; simpl; try discriminate.
  intros Hparse. exists d. split; [reflexivity|].
  destruct (assoc "id" d) as [[|b|z|token|l|d']|]; try discriminate.
  destruct (from_global_id token) as [[typeTag rawId]|]; try discriminate.
  repeat case_decide; by simplify_eq.
Qed.

End ParserFacts.

(** C6: an entry whose id decodes keeps the token itself under the tag
    [app] and only the raw id under the tag [ShippingMethod]; its reason is
    the one given, the empty string when there is none. *)
Theorem response_entry_id_by_type_tag `{Collaborators}
    (d : list (string * pyval)) (token typeTag rawId : string) :
  assoc "id" d = Some (PStr token) ->
  from_global_id token = Some (typeTag, rawId) ->
  let parsed :=
    get_excluded_shipping_methods_from_response
      (PDict [("excluded_methods", PList [PDict d])]) in
  let reason :=
    match assoc "reason" d with Some r => r | None => PStr "" end in
  (typeTag = "app" -> parsed = Ok [RawExclusion.mk token reason]) /\
  (typeTag = "ShippingMethod" -> parsed = Ok [RawExclusion.mk rawId reason]).
Proof.
  intros Hid Hdec parsed reason. subst parsed.
  rewrite (from_response_list _ [PDict d]) by reflexivity.
  simpl. rewrite Hid, Hdec. split; intros ->.
  - by rewrite decide_True.
  - rewrite decide_False by done. by rewrite decide_True.
Qed.

Lemma response_entry_id_by_type_tag_witness :
  let H := Demo.scenario in
  let by_tag token :=
    get_excluded_shipping_methods_from_response
      (PDict [("excluded_methods", PList [PDict [("id", PStr token)]])]) in
  (from_global_id "APP_9" = Some ("app", "9")
   /\ by_tag "APP_9" = Ok [RawExclusion.mk "APP_9" (PStr "")])
  /\ (from_global_id "U2hpcHBpbmdNZXRob2Q6NDI=" = Some ("ShippingMethod", "42")
      /\ by_tag "U2hpcHBpbmdNZXRob2Q6NDI=" = Ok [RawExclusion.mk "42" (PStr "")]).
Proof.
  intros H by_tag. split; (split; [reflexivity|]).
  - exact (proj1 (response_entry_id_by_type_tag (H := H)
                    [("id", PStr "APP_9")] "APP_9" "app" "9"
                    eq_refl eq_refl) eq_refl).
  - exact (proj2 (response_entry_id_by_type_tag (H := H)
                    [("id", PStr "U2hpcHBpbmdNZXRob2Q6NDI=")]
                    "U2hpcHBpbmdNZXRob2Q6NDI=" "ShippingMethod" "42"
                    eq_refl eq_refl) eq_refl).
Defined.

(** C7: in a batch, an entry that is malformed (no id, an id that does not
    decode, a type tag other than [app] and [ShippingMethod]) is left out
    without an exception, and the batch gives what it gives without that
    entry: every other entry is parsed as usual. *)
Theorem malformed_entries_dropped `{Collaborators}
    (before after : list pyval) (bad : pyval) :
  malformed_entry bad ->
  exists out,
    get_excluded_shipping_methods_from_response
      (PDict [("excluded_methods", PList (before ++ bad :: after))]) = Ok out
    /\ get_excluded_shipping_methods_from_response
         (PDict [("excluded_methods", PList (before ++ after))]) = Ok out
    /\ out = omap ResponseParser_parse before ++ omap ResponseParser_parse after.
Proof.
  intros Hbad. eexists. split; [|split].
  - rewrite (from_response_list _ (before ++ bad :: after)) by reflexivity.
    rewrite omap_app. simpl. rewrite (malformed_entry_parse bad Hbad).
    reflexivity.
  - rewrite (from_response_list _ (before ++ after)) by reflexivity.
    by rewrite omap_app.
  - reflexivity.
Qed.

Lemma malformed_entries_dropped_witness :
  let H := Demo.scenario in
  malformed_entry (PDict [("reason", PStr "no id")])
  /\ get_excluded_shipping_methods_from_response
       (PDict [("excluded_methods",
                PList [PDict [("reason", PStr "no id")];
                       Demo.entry "APP_9" "restricted region"])])
     = Ok [RawExclusion.mk "APP_9" (PStr "restricted region")].
Proof.
  intros H.
  assert (Hbad : malformed_entry (PDict [("reason", PStr "no id")])).
  { apply missing_id. reflexivity. }
  split; [exact Hbad|].
  destruct (malformed_entries_dropped (H := H) []
              [Demo.entry "APP_9" "restricted region"] _ Hbad)
    as (out & Hwith & _ & ->).
  exact Hwith.
Defined.

(** C9, as the code has it: for every response body, the list that
    [get_excluded_shipping_methods_from_response] returns is made of the
    entries that parse, all of them and in their order, so it is no longer
    than the entries of the body; the reason of a record is the value the
    entry gave, and the empty string when the entry gave none.  (It
    returns for every mapping whose entries can be iterated, and raises
    otherwise.) *)
Theorem parsed_entries_in_order `{Collaborators} (response : pyval) :
  match get_excluded_shipping_methods_from_response response with
  | Ok out =>
      exists d entries,
        response = PDict d
        /\ py_iter (default (PList []) (assoc "excluded_methods" d))
           = Ok entries
        /\ let kept :=
             filter (fun e => is_Some (ResponseParser_parse e)) entries in
           sublist kept entries
           /\ Forall2
                (fun e r =>
                   ResponseParser_parse e = Some r /\
                   exists de, e = PDict de /\
                     RawExclusion.reason r
                     = match assoc "reason" de with
                       | Some v => v
                       | None => PStr ""
                       end)
                kept out
           /\ length out <= length entries
  | Raise _ =>
      (forall d, response <> PDict d)
      \/ exists d,
           response = PDict d
           /\ py_iter (default (PList []) (assoc "excluded_methods" d))
              = Raise TypeError
  end.
Proof.
  destruct response as [|b|z|s|l|d]; try (by left).
  unfold get_excluded_shipping_methods_from_response. simpl.
  destruct (py_iter (default (PList []) (assoc "excluded_methods" d)))
    as [entries|e] eqn:Hiter; simpl.
  - rewrite excluded_methods_loop_parse. simpl.
    exists d, entries. split; [done|]. split; [done|].
    split; [apply sublist_filter|]. split; [|apply length_omap_le].
    eapply Forall2_impl; [apply omap_kept|].
    intros e r Hparse. split; [exact Hparse|]. by apply parse_reason.
  - right. exists d. split; [done|].
    destruct (default (PList []) (assoc "excluded_methods" d));
      simpl in Hiter; by simplify_eq.
Qed.

Lemma parsed_entries_in_order_witness :
  let H := Demo.scenario in
  let entries :=
    [Demo.entry "APP_9" "a"; PInt 7;
     PDict [("id", PStr "U2hpcHBpbmdNZXRob2Q6NDI=")]] in
  exists kept,
    sublist kept entries
    /\ Forall2 (fun e r => ResponseParser_parse e = Some r) kept
         [RawExclusion.mk "APP_9" (PStr "a"); RawExclusion.mk "42" (PStr "")]
    /\ get_excluded_shipping_methods_from_response
         (PDict [("excluded_methods", PList entries)])
       = Ok [RawExclusion.mk "APP_9" (PStr "a");
             RawExclusion.mk "42" (PStr "")].
Proof.
  intros H entries.
  pose proof (parsed_entries_in_order (H := H)
                (PDict [("excluded_methods", PList entries)])) as Hall.
  change (get_excluded_shipping_methods_from_response
            (PDict [("excluded_methods", PList entries)]))
    with (Ok [RawExclusion.mk "APP_9" (PStr "a");
              RawExclusion.mk "42" (PStr "")]) in Hall.
  destruct Hall as (d & entries' & Hd & Hiter & Hsub & Hkept & _).
  injection Hd as <-. simpl in Hiter. injection Hiter as <-.
  eexists. split; [exact Hsub|]. split; [|reflexivity].
  eapply Forall2_impl; [exact Hkept|]. by intros e r [Hparse _].
Defined.

(** C9, the input on which the claim as written fails: an entry whose
    reason is an explicit null comes back with the reason [None]. *)
Lemma null_reason_comes_back_as_None :
  let H := Demo.scenario in
  get_excluded_shipping_methods_from_response
    (PDict [("excluded_methods",
             PList [PDict [("id", PStr "U2hpcHBpbmdNZXRob2Q6NDI=");
                           ("reason", PNone)]])])
  = Ok [RawExclusion.mk "42" PNone].
Proof. reflexivity. Qed.

(** ** The map of methods and the merge *)

Section MergeFacts.

Implicit Types (d : methods_map) (k : string) (v : ESM).

Lemma keys_dict_append k v d :
  keys (dict_append k v d)
  = if bool_decide (k ∈ keys d) then keys d else keys d ++ [k].
Proof.
  induction d as [|[k' vs] d IH]; simpl; [done|].
  destruct (String.eqb_spec k' k) as [->|Hne]; simpl.
  - rewrite bool_decide_eq_true_2 by left. done.
  - rewrite IH. destruct (bool_decide_reflect (k ∈ keys d)) as [Hin|Hin].
    + rewrite bool_decide_eq_true_2 by (by right). done.
    + rewrite bool_decide_eq_false_2; [done|].
      rewrite elem_of_cons. intros [?|?]; congruence.
Qed.

Lemma bucket_dict_append k v d k' :
  bucket k' (dict_append k v d)
  = if String.eqb k k' then bucket k' d ++ [v] else bucket k' d.
Proof.
  unfold bucket. induction d as [|[k0 vs] d IH]; simpl.
  { by destruct (String.eqb k k'). }
  destruct (String.eqb_spec k0 k) as [->|Hne]; simpl.
  - by destruct (String.eqb k k').
  - destruct (String.eqb_spec k0 k') as [->|Hne']; [|exact IH].
    destruct (String.eqb_spec k k') as [->|]; done.
Qed.

Lemma NoDup_keys_dict_append k v d :
  NoDup (keys d) -> NoDup (keys (dict_append k v d)).
Proof.
  intros Hd. rewrite keys_dict_append.
  destruct (bool_decide_reflect (k ∈ keys d)) as [Hin|Hin]; [done|].
  apply NoDup_app. split; [done|]. split; [|apply NoDup_singleton].
  intros x Hx ->%list_elem_of_singleton. done.
Qed.

Lemma map_typed_dict_append k v d :
  reason_typed (ExcludedShippingMethod.reason v) = true ->
  map_typed d -> map_typed (dict_append k v d).
Proof.
  intros Hv. unfold map_typed, methods_typed.
  induction d as [|[k' vs] d IH]; simpl; intros Hd.
  { repeat constructor. exact Hv. }
  apply Forall_cons in Hd as [Hvs Hd].
  destruct (String.eqb k' k); constructor; simpl; auto.
  apply Forall_app. split; [exact Hvs|]. by constructor.
Qed.

Lemma bucket_of_binding d k vs :
  NoDup (keys d) -> (k, vs) ∈ d -> bucket k d = vs.
Proof.
  unfold bucket. induction d as [|[k' vs'] d IH]; simpl.
  { intros _ Hin. by apply elem_of_nil in Hin. }
  intros [Hk' Hd]%NoDup_cons [Heq|Hin]%elem_of_cons.
  - simplify_eq. by rewrite String.eqb_refl.
  - destruct (String.eqb_spec k' k) as [->|Hne]; [|by apply IH].
    destruct Hk'. apply list_elem_of_fmap. by exists (k, vs).
Qed.

Lemma first_seen_ext seen seen' l :
  (forall x, x ∈ seen <-> x ∈ seen') -> first_seen seen l = first_seen seen' l.
Proof.
  revert seen seen'. induction l as [|x l IH]; intros seen seen' Hext; simpl.
  { done. }
  rewrite (bool_decide_ext _ _ (Hext x)).
  destruct (bool_decide (x ∈ seen')); [by apply IH|].
  f_equal. apply IH. intros y. rewrite !elem_of_cons, Hext. done.
Qed.

Lemma elem_of_first_seen seen l x :
  x ∈ first_seen seen l <-> x ∈ l /\ x ∉ seen.
Proof.
  revert seen. induction l as [|y l IH]; intros seen; simpl.
  { rewrite elem_of_nil. tauto. }
  destruct (bool_decide_reflect (y ∈ seen)) as [Hin|Hin].
  - rewrite IH, elem_of_cons. split; [tauto|].
    intros [[->|Hx] Hseen]; [done|tauto].
  - rewrite !elem_of_cons, IH, elem_of_cons.
    destruct (decide (x = y)) as [->|Hne]; tauto.
Qed.

Lemma keys_gather_previous d previous_value :
  keys (gather_previous d previous_value)
  = keys d ++ first_seen (keys d) (ids previous_value).
Proof.
  unfold gather_previous. revert d.
  induction previous_value as [|m rest IH]; intros d; simpl.
  { by rewrite app_nil_r. }
  rewrite IH, keys_dict_append.
  destruct (bool_decide (ExcludedShippingMethod.id m ∈ keys d)); [done|].
  rewrite <- app_assoc. simpl. do 2 f_equal.
  apply first_seen_ext. intros x.
  rewrite elem_of_app, !elem_of_cons, elem_of_nil. tauto.
Qed.

Lemma bucket_gather_previous d previous_value k :
  bucket k (gather_previous d previous_value)
  = bucket k d ++ with_id k previous_value.
Proof.
  unfold gather_previous. revert d.
  induction previous_value as [|m rest IH]; intros d; simpl.
  { by rewrite app_nil_r. }
  rewrite IH, bucket_dict_append.
  destruct (String.eqb (ExcludedShippingMethod.id m) k); [|done].
  by rewrite <- app_assoc.
Qed.

Lemma NoDup_keys_gather_previous d previous_value :
  NoDup (keys d) -> NoDup (keys (gather_previous d previous_value)).
Proof.
  unfold gather_previous. revert d.
  induction previous_value as [|m rest IH]; intros d Hd; simpl; [done|].
  apply IH. by apply NoDup_keys_dict_append.
Qed.

Lemma map_typed_gather_previous d previous_value :
  map_typed d -> methods_typed previous_value ->
  map_typed (gather_previous d previous_value).
Proof.
  unfold gather_previous. revert d.
  induction previous_value as [|m rest IH]; intros d Hd Hprev; simpl; [done|].
  apply Forall_cons in Hprev as [Hm Hrest].
  apply IH; [|exact Hrest]. by apply map_typed_dict_append.
Qed.

(** The map made from raw exclusions is the empty map in which they are
    gathered one by one: it has one key per id. *)
Lemma parse_excluded_shipping_methods_gather raws :
  parse_excluded_shipping_methods raws
  = gather_previous []
      (map (fun r => ExcludedShippingMethod.mk (RawExclusion.id r)
                       (RawExclusion.reason r)) raws).
Proof.
  unfold parse_excluded_shipping_methods, gather_previous.
  generalize ([] : methods_map).
  induction raws as [|r raws IH]; intros d; simpl; [done|]. apply IH.
Qed.

Lemma NoDup_keys_parse raws :
  NoDup (keys (parse_excluded_shipping_methods raws)).
Proof.
  rewrite parse_excluded_shipping_methods_gather.
  apply NoDup_keys_gather_previous. constructor.
Qed.

Lemma py_strings_texts ss : py_strings (map PStr ss) = Ok ss.
Proof. induction ss as [|s ss IH]; simpl; [done|]. by rewrite IH. Qed.

Lemma truthy_reasons_typed methods :
  methods_typed methods ->
  List.filter truthy (map ExcludedShippingMethod.reason methods)
  = map PStr (nonempty_reasons methods).
Proof.
  unfold nonempty_reasons.
  induction 1 as [|[i r] methods Hr _ IH]; simpl; [done|].
  simpl in Hr. destruct r as [|b|z|s|l|d']; try discriminate; csimpl.
  - exact IH.
  - destruct (decide (s = "")) as [->|Hs]; csimpl; [exact IH|].
    rewrite (proj2 (String.eqb_neq s "") Hs). csimpl. by rewrite IH.
Qed.

Lemma merged_reason_typed methods :
  methods_typed methods ->
  merged_reason methods = Ok (spec_final_reason methods).
Proof.
  intros Htyped. unfold merged_reason, spec_final_reason.
  rewrite (truthy_reasons_typed _ Htyped).
  destruct (nonempty_reasons methods) as [|s ss]; [done|].
  unfold py_join. rewrite py_strings_texts. done.
Qed.

Lemma unique_by_id_typed items excluded_methods :
  map_typed items ->
  unique_by_id items excluded_methods
  = Ok (excluded_methods
        ++ map (fun kv => ExcludedShippingMethod.mk (fst kv)
                            (spec_final_reason (snd kv))) items).
Proof.
  intros Htyped. revert excluded_methods.
  induction Htyped as [|[k methods] items Hk _ IH]; intros acc; simpl.
  { by rewrite app_nil_r. }
  simpl in Hk. rewrite (merged_reason_typed _ Hk). simpl.
  rewrite IH, <- app_assoc. done.
Qed.

Lemma merge_excluded_typed d previous_value :
  map_typed d -> methods_typed previous_value ->
  merge_excluded d previous_value
  = Ok (map (fun kv => ExcludedShippingMethod.mk (fst kv)
                         (spec_final_reason (snd kv)))
          (gather_previous d previous_value)).
Proof.
  intros Hd Hprev. unfold merge_excluded.
  rewrite unique_by_id_typed by (by apply map_typed_gather_previous). done.
Qed.

End MergeFacts.

Lemma merge_excluded_by_key (fetched : methods_map) (previous_value : list ESM) :
  NoDup (keys fetched) -> map_typed fetched -> methods_typed previous_value ->
  merge_excluded fetched previous_value
  = Ok (map (fun k =>
               ExcludedShippingMethod.mk k
                 (spec_final_reason
                    (bucket k fetched ++ with_id k previous_value)))
          (keys fetched ++ first_seen (keys fetched) (ids previous_value))).
Proof.
  intros Hdup Hfetched Hprev.
  rewrite merge_excluded_typed by done. f_equal.
  rewrite <- keys_gather_previous. unfold keys. rewrite map_map.
  apply map_ext_in. intros [k vs] Hin%list_elem_of_In. simpl.
  rewrite <- bucket_gather_previous.
  rewrite (bucket_of_binding _ k vs); [done| |done].
  by apply NoDup_keys_gather_previous.
Qed.

(** C4: the merged answer has one entry per id, no id twice: first the ids
    of the fetched map in its order, then the ids that only the previous
    list brings, in the order the previous list first names them. *)
Theorem merged_ids_unique_first_seen
    (fetched : methods_map) (previous_value : list ESM) :
  NoDup (keys fetched) -> map_typed fetched -> methods_typed previous_value ->
  exists out,
    merge_excluded fetched previous_value = Ok out
    /\ NoDup (ids out)
    /\ ids out = keys fetched ++ first_seen (keys fetched) (ids previous_value)
    /\ (forall k, k ∈ ids out <-> k ∈ keys fetched \/ k ∈ ids previous_value).
Proof.
  intros Hdup Hfetched Hprev. eexists.
  split; [by apply merge_excluded_by_key|].
  assert (Hids : forall (f : string -> pyval) l,
             ids (map (fun k => ExcludedShippingMethod.mk k (f k)) l) = l).
  { intros f l. unfold ids. rewrite map_map. simpl. apply map_id. }
  rewrite Hids, <- keys_gather_previous.
  split; [by apply NoDup_keys_gather_previous|]. split; [done|].
  intros k. rewrite keys_gather_previous, elem_of_app, elem_of_first_seen.
  destruct (decide (k ∈ keys fetched)); tauto.
Qed.

Lemma merged_ids_unique_first_seen_witness :
  let fetched :=
    [("5", [Demo.ESM_of "5" (PStr "too heavy")]);
     ("APP_9", [Demo.ESM_of "APP_9" (PStr "")])] in
  let previous_value :=
    [Demo.ESM_of "7" PNone; Demo.ESM_of "5" (PStr "closed");
     Demo.ESM_of "7" (PStr "late")] in
  exists out,
    merge_excluded fetched previous_value = Ok out
    /\ NoDup (ids out)
    /\ ids out = ["5"; "APP_9"; "7"].
Proof.
  intros fetched previous_value.
  assert (Hdup : NoDup (keys fetched)).
  { refine (bool_decide_unpack _ _). vm_compute. exact I. }
  assert (Hfetched : map_typed fetched) by (repeat constructor).
  assert (Hprev : methods_typed previous_value) by (repeat constructor).
  destruct (merged_ids_unique_first_seen fetched previous_value
              Hdup Hfetched Hprev) as (out & Hout & Hnodup & Hids & _).
  exists out. split; [exact Hout|]. split; [exact Hnodup|].
  rewrite Hids. reflexivity.
Defined.

(** C5: the reason of an id in the merged answer is its non-empty reasons
    joined by a space, those of the fetched map first and then those of the
    previous list; it is [None] when the id has no non-empty reason. *)
Theorem merged_reason_joins_bucket
    (fetched : methods_map) (previous_value : list ESM) :
  NoDup (keys fetched) -> map_typed fetched -> methods_typed previous_value ->
  exists out,
    merge_excluded fetched previous_value = Ok out
    /\ Forall
         (fun m =>
            let contributions :=
              bucket (ExcludedShippingMethod.id m) fetched
              ++ with_id (ExcludedShippingMethod.id m) previous_value in
            ExcludedShippingMethod.reason m
            = match nonempty_reasons contributions with
              | [] => PNone
              | reasons => PStr (String.concat " " reasons)
              end)
         out
    /\ (fetched = [("A", [ExcludedShippingMethod.mk "A" (PStr "x")])] ->
        previous_value = [ExcludedShippingMethod.mk "A" (PStr "y")] ->
        out = [ExcludedShippingMethod.mk "A" (PStr "x y")]).
Proof.
  intros Hdup Hfetched Hprev. eexists.
  split; [by apply merge_excluded_by_key|]. split.
  - apply Forall_forall. intros m (k & -> & _)%list_elem_of_fmap. reflexivity.
  - intros -> ->. reflexivity.
Qed.

Lemma merged_reason_joins_bucket_witness :
  merge_excluded [("A", [ExcludedShippingMethod.mk "A" (PStr "x")])]
    [ExcludedShippingMethod.mk "A" (PStr "y")]
  = Ok [ExcludedShippingMethod.mk "A" (PStr "x y")].
Proof.
  assert (Hdup : NoDup (keys [("A", [ExcludedShippingMethod.mk "A" (PStr "x")])])).
  { refine (bool_decide_unpack _ _). vm_compute. exact I. }
  destruct (merged_reason_joins_bucket
              [("A", [ExcludedShippingMethod.mk "A" (PStr "x")])]
              [ExcludedShippingMethod.mk "A" (PStr "y")] Hdup
              ltac:(repeat constructor) ltac:(repeat constructor))
    as (out & Hout & _ & Hp4).
  rewrite Hout, (Hp4 eq_refl eq_refl). reflexivity.
Defined.

(** ** The cache and the webhooks *)

Section FetchFacts.
Context `{Collaborators}.

Lemma well_shaped_parses response :
  well_shaped response = true -> truthy response = true ->
  exists l, get_excluded_shipping_methods_from_response response = Ok l.
Proof.
  destruct response as [|b|z|s|l|d]; simpl;
    try (intros Hshape Htruthy; rewrite Htruthy in Hshape; simpl in Hshape;
         discriminate); try discriminate.
  unfold get_excluded_shipping_methods_from_response. simpl.
  destruct (assoc "excluded_methods" d) as [[|b|z|s|l|d']|]; simpl;
    try discriminate; intros _ _; rewrite ?excluded_methods_loop_parse; eauto.
Qed.

Lemma falsy_well_shaped response :
  truthy response = false -> well_shaped response = true.
Proof.
  destruct response as [|b|z|s|l|d]; simpl; intros Hfalsy;
    rewrite ?Hfalsy; try done.
  by destruct d.
Qed.

Lemma falsy_contribution response :
  truthy response = false -> contribution response = [].
Proof. unfold contribution. by intros ->. Qed.

(** The loop over the webhooks, when every answer satisfies [P] and [P]
    answers are well shaped: one call per webhook, in order, and the
    contributions of the answers put end to end. *)
Lemma gather_responses_trace (P : pyval -> Prop) webhooks event_type payload :
  (forall w e p a t, P (webhook_response w e p a t)) ->
  (forall r, P r -> well_shaped r = true) ->
  forall excluded_methods w,
  exists responses,
    length responses = length webhooks
    /\ Forall P responses
    /\ gather_responses webhooks event_type payload excluded_methods w
       = (Ok (excluded_methods ++ concat (map contribution responses)),
          {| cache := cache w;
             trace := trace w
               ++ zip_with
                    (fun webhook response =>
                       TriggerWebhookSync event_type payload (app webhook)
                         EXCLUDED_SHIPPING_REQUEST_TIMEOUT response)
                    webhooks responses |}).
Proof.
  intros Hanswers Hshaped.
  induction webhooks as [|webhook rest IH]; intros acc w.
  { exists []. simpl. rewrite !app_nil_r. by destruct w. }
  simpl. unfold mbind, M_bind, trigger_webhook_sync at 1. simpl.
  set (r := webhook_response w event_type payload (app webhook)
              EXCLUDED_SHIPPING_REQUEST_TIMEOUT).
  pose proof (Hanswers w event_type payload (app webhook)
                EXCLUDED_SHIPPING_REQUEST_TIMEOUT) as Hr. fold r in Hr.
  destruct (truthy r) eqn:Htruthy.
  - destruct (well_shaped_parses r (Hshaped r Hr) Htruthy) as [l Hl].
    unfold lift. rewrite Hl.
    destruct (IH (acc ++ l)
                (log (TriggerWebhookSync event_type payload (app webhook)
                        EXCLUDED_SHIPPING_REQUEST_TIMEOUT r) w))
      as (responses & Hlen & HP & Heq).
    exists (r :: responses). split; [simpl; by rewrite Hlen|].
    split; [by constructor|].
    assert (Hcontribution : contribution r = l).
    { unfold contribution. by rewrite Htruthy, Hl. }
    rewrite Heq. simpl. rewrite Hcontribution. by rewrite <- !app_assoc.
  - destruct (IH acc
                (log (TriggerWebhookSync event_type payload (app webhook)
                        EXCLUDED_SHIPPING_REQUEST_TIMEOUT r) w))
      as (responses & Hlen & HP & Heq).
    exists (r :: responses). split; [simpl; by rewrite Hlen|].
    split; [by constructor|].
    rewrite Heq. simpl. rewrite (falsy_contribution r Htruthy). simpl.
    by rewrite <- !app_assoc.
Qed.

Lemma fetch_from_webhooks_trace (P : pyval -> Prop) webhooks event_type
    payload cache_key w :
  (forall w e p a t, P (webhook_response w e p a t)) ->
  (forall r, P r -> well_shaped r = true) ->
  exists responses,
    length responses = length webhooks
    /\ Forall P responses
    /\ fetch_from_webhooks webhooks event_type payload cache_key w
       = (Ok (parse_excluded_shipping_methods
                (concat (map contribution responses))),
          {| cache := <[cache_key := (payload, concat (map contribution responses))]>
                        (cache w);
             trace := trace w
               ++ zip_with
                    (fun webhook response =>
                       TriggerWebhookSync event_type payload (app webhook)
                         EXCLUDED_SHIPPING_REQUEST_TIMEOUT response)
                    webhooks responses
               ++ [CacheSet cache_key
                     (payload, concat (map contribution responses))
                     CACHE_EXCLUDED_SHIPPING_TIME] |}).
Proof.
  intros Hanswers Hshaped.
  destruct (gather_responses_trace P webhooks event_type payload
              Hanswers Hshaped [] w) as (responses & Hlen & HP & Heq).
  exists responses. split; [done|]. split; [done|].
  unfold fetch_from_webhooks, mbind, M_bind. rewrite Heq. simpl.
  unfold log. simpl. by rewrite <- app_assoc.
Qed.

(** On a miss the lookup is followed by the fetch. *)
Lemma or_fetch_miss webhooks event_type payload cache_key w :
  (forall cached_payload stored,
      cache w !! cache_key = Some (cached_payload, stored) ->
      cached_payload <> payload) ->
  get_excluded_shipping_methods_or_fetch webhooks event_type payload cache_key w
  = fetch_from_webhooks webhooks event_type payload cache_key
      (log (CacheGet cache_key) w).
Proof.
  intros Hmiss.
  unfold get_excluded_shipping_methods_or_fetch, mbind, M_bind, cache_get.
  destruct (cache w !! cache_key) as [[cached_payload stored]|] eqn:Hget;
    [|reflexivity].
  destruct (String.eqb_spec payload cached_payload) as [->|Hne]; [|reflexivity].
  by destruct (Hmiss _ _ eq_refl).
Qed.

End FetchFacts.

(** C1: when the cache holds, under the key, the payload just computed, the
    answer is made from what is stored with it; no webhook is called and
    nothing is written to the cache. *)
Theorem cache_hit_skips_webhooks `{Collaborators}
    (webhooks : list Webhook) (event_type payload cache_key : string)
    (stored : list RawExclusion.t) (w : World) :
  cache w !! cache_key = Some (payload, stored) ->
  exists w',
    get_excluded_shipping_methods_or_fetch webhooks event_type payload
      cache_key w
    = (Ok (parse_excluded_shipping_methods stored), w')
    /\ trace w' = trace w ++ [CacheGet cache_key]
    /\ cache w' = cache w
    /\ webhook_calls (trace w') = webhook_calls (trace w)
    /\ cache_writes (trace w') = cache_writes (trace w).
Proof.
  intros Hget. exists (log (CacheGet cache_key) w).
  split; [|split; [done|split; [done|]]].
  - unfold get_excluded_shipping_methods_or_fetch, mbind, M_bind, cache_get.
    simpl. rewrite Hget, String.eqb_refl. reflexivity.
  - unfold webhook_calls, cache_writes. simpl.
    rewrite !List.filter_app. simpl. by rewrite !app_nil_r.
Qed.

Lemma cache_hit_skips_webhooks_witness :
  let H := Demo.scenario in
  let stored := [RawExclusion.mk "5" (PStr "too heavy")] in
  let w := {| cache := {["k" := ("P", stored)]}; trace := [] |} in
  cache w !! "k" = Some ("P", stored)
  /\ exists w',
       get_excluded_shipping_methods_or_fetch [Demo.W1; Demo.W2] "ev" "P" "k" w
       = (Ok [("5", [Demo.ESM_of "5" (PStr "too heavy")])], w')
       /\ webhook_calls (trace w') = 0
       /\ cache_writes (trace w') = 0.
Proof.
  intros H stored w.
  assert (Hget : cache w !! "k" = Some ("P", stored)) by reflexivity.
  split; [exact Hget|].
  destruct (cache_hit_skips_webhooks (H := H) [Demo.W1; Demo.W2] "ev" "P" "k"
              stored w Hget) as (w' & Hrun & _ & _ & Hcalls & Hwrites).
  exists w'. split; [exact Hrun|]. split; [exact Hcalls|exact Hwrites].
Defined.

(** C2, as the code has it: on a miss (no entry, or another payload), when
    every answer of a webhook is falsy or a body of the expected shape,
    each subscribed webhook is called once, in the order of the registry,
    with the event type, the payload, its app and the timeout; a falsy
    answer adds nothing and the next webhooks are still called; the entries
    of the other answers are put end to end; the pair of the payload and
    that list is written once under the key, with the time to live, over
    what was there; the answer is that list grouped by id. *)
Theorem cache_miss_calls_every_webhook `{Collaborators}
    (webhooks : list Webhook) (event_type payload cache_key : string)
    (w : World) :
  (forall cached_payload stored,
      cache w !! cache_key = Some (cached_payload, stored) ->
      cached_payload <> payload) ->
  (forall w' e p a t, well_shaped (webhook_response w' e p a t) = true) ->
  exists responses,
    length responses = length webhooks
    /\ let raw := concat (map contribution responses) in
       get_excluded_shipping_methods_or_fetch webhooks event_type payload
         cache_key w
       = (Ok (parse_excluded_shipping_methods raw),
          {| cache := <[cache_key := (payload, raw)]> (cache w);
             trace := trace w ++ [CacheGet cache_key]
               ++ zip_with
                    (fun webhook response =>
                       TriggerWebhookSync event_type payload (app webhook)
                         EXCLUDED_SHIPPING_REQUEST_TIMEOUT response)
                    webhooks responses
               ++ [CacheSet cache_key (payload, raw)
                     CACHE_EXCLUDED_SHIPPING_TIME] |}).
Proof.
  intros Hmiss Hshaped.
  destruct (fetch_from_webhooks_trace (fun r => well_shaped r = true)
              webhooks event_type payload cache_key
              (log (CacheGet cache_key) w) Hshaped (fun r Hr => Hr))
    as (responses & Hlen & _ & Heq).
  exists responses. split; [exact Hlen|]. simpl.
  rewrite or_fetch_miss by exact Hmiss. rewrite Heq. simpl.
  by rewrite <- !app_assoc.
Qed.

Lemma cache_miss_calls_every_webhook_witness :
  let H := Demo.scenario in
  (forall cached_payload stored,
      cache Demo.empty_world !! "k" = Some (cached_payload, stored) ->
      cached_payload <> "P")
  /\ (forall w' e p a t, well_shaped (webhook_response w' e p a t) = true)
  /\ exists responses,
       length responses = 2
       /\ let raw := concat (map contribution responses) in
          get_excluded_shipping_methods_or_fetch [Demo.W1; Demo.W2] "ev" "P"
            "k" Demo.empty_world
          = (Ok (parse_excluded_shipping_methods raw),
             {| cache := <["k" := ("P", raw)]> ∅;
                trace := [] ++ [CacheGet "k"]
                  ++ zip_with
                       (fun webhook response =>
                          TriggerWebhookSync "ev" "P" (app webhook) 2 response)
                       [Demo.W1; Demo.W2] responses
                  ++ [CacheSet "k" ("P", raw) 180] |}).
Proof.
  intros H.
  assert (Hmiss : forall cached_payload stored,
             cache Demo.empty_world !! "k" = Some (cached_payload, stored) ->
             cached_payload <> "P").
  { intros cached_payload stored Hget. simpl in Hget. discriminate. }
  assert (Hshaped : forall w' e p a t,
             well_shaped (webhook_response w' e p a t) = true).
  { intros w' e p a t. simpl. unfold Demo.scenario_respond.
    destruct (Z.eqb (pk a) 1); reflexivity. }
  split; [exact Hmiss|]. split; [exact Hshaped|].
  exact (cache_miss_calls_every_webhook (H := H) [Demo.W1; Demo.W2] "ev" "P"
           "k" Demo.empty_world Hmiss Hshaped).
Defined.

(** C2, the input on which the claim as written fails: the first of two
    webhooks answers with a null list of methods; the call raises, the
    second webhook is never called and nothing is written to the cache. *)
Lemma null_methods_answer_aborts_fetch :
  let H := Demo.null_methods in
  let run :=
    get_excluded_shipping_methods_or_fetch [Demo.W1; Demo.W2] "ev" "P" "k"
      Demo.empty_world in
  cache Demo.empty_world !! "k" = None
  /\ fst run = Raise TypeError
  /\ webhook_calls (trace (snd run)) = 1
  /\ cache_writes (trace (snd run)) = 0
  /\ cache (snd run) !! "k" = None.
Proof. repeat split; reflexivity. Qed.

(** C3: with no subscriber the payload function is not called (the world
    is left as it was) and the answer is the merge of the empty map with the
    previous list. *)
Theorem no_subscriber_skips_payload `{Collaborators}
    (event_type cache_key : string) (previous_value : list ESM)
    (payload_fun : World -> string) (w : World) :
  _get_webhooks_for_event event_type = [] ->
  get_excluded_shipping_data event_type previous_value payload_fun cache_key w
  = (merge_excluded [] previous_value, w)
  /\ payload_calls
       (trace (snd (get_excluded_shipping_data event_type previous_value
                      payload_fun cache_key w)))
     = payload_calls (trace w).
Proof.
  intros Hnone.
  assert (Hrun : get_excluded_shipping_data event_type previous_value
                   payload_fun cache_key w
                 = (merge_excluded [] previous_value, w)).
  { unfold get_excluded_shipping_data. rewrite Hnone. reflexivity. }
  split; [exact Hrun|]. by rewrite Hrun.
Qed.

Lemma no_subscriber_skips_payload_witness :
  let H := Demo.no_subscribers in
  let previous_value :=
    [Demo.ESM_of "A" (PStr "y"); Demo.ESM_of "A" (PStr "z")] in
  _get_webhooks_for_event "ev" = []
  /\ get_excluded_shipping_data "ev" previous_value (fun _ => "P") "k"
       Demo.empty_world
     = (Ok [Demo.ESM_of "A" (PStr "y z")], Demo.empty_world).
Proof.
  intros H previous_value. split; [reflexivity|].
  exact (proj1 (no_subscriber_skips_payload (H := H) "ev" "k" previous_value
                  (fun _ => "P") Demo.empty_world eq_refl)).
Defined.

(** C8: with subscribers and no usable cache entry, when every webhook
    gives a falsy answer the call still returns, and returns what the
    previous list alone gives. *)
Theorem all_webhooks_failing_is_fail_open `{Collaborators}
    (event_type cache_key : string) (previous_value : list ESM)
    (payload_fun : World -> string) (w : World) :
  _get_webhooks_for_event event_type <> [] ->
  (forall cached_payload stored,
      cache w !! cache_key = Some (cached_payload, stored) ->
      cached_payload <> payload_fun w) ->
  (forall w' e p a t, truthy (webhook_response w' e p a t) = false) ->
  methods_typed previous_value ->
  exists out w',
    get_excluded_shipping_data event_type previous_value payload_fun
      cache_key w = (Ok out, w')
    /\ merge_excluded [] previous_value = Ok out
    /\ webhook_calls (trace w')
       = webhook_calls (trace w) + length (_get_webhooks_for_event event_type).
Proof.
  intros Hsome Hmiss Hdown Htyped.
  unfold get_excluded_shipping_data.
  destruct (_get_webhooks_for_event event_type) as [|webhook rest] eqn:Hhooks;
    [done|].
  set (hooks := webhook :: rest).
  unfold mbind at 1. unfold M_bind at 1.
  unfold mbind at 1. unfold M_bind at 1.
  unfold call_payload_fun at 1.
  set (payload := payload_fun w).
  rewrite or_fetch_miss by exact Hmiss.
  destruct (fetch_from_webhooks_trace (fun r => truthy r = false)
              hooks event_type payload cache_key
              (log (CacheGet cache_key) (log (PayloadFun payload) w))
              Hdown falsy_well_shaped)
    as (responses & Hlen & Hfalsy & Heq).
  rewrite Heq.
  assert (Hraw : concat (map contribution responses) = []).
  { clear Heq Hlen. induction Hfalsy as [|r rs Hr _ IH]; simpl; [done|].
    by rewrite (falsy_contribution r Hr), IH. }
  rewrite Hraw. unfold lift.
  change (parse_excluded_shipping_methods []) with ([] : methods_map).
  rewrite (merge_excluded_typed [] previous_value) by (done || constructor).
  do 2 eexists. split; [reflexivity|]. split; [reflexivity|].
  unfold webhook_calls, log. cbn [trace].
  rewrite !List.filter_app, !length_app. cbn [List.filter is_webhook_call length].
  assert (Hcalls : forall rs,
             length rs = length hooks ->
             length (List.filter is_webhook_call
                       (zip_with
                          (fun webhook response =>
                             TriggerWebhookSync event_type payload
                               (app webhook) EXCLUDED_SHIPPING_REQUEST_TIMEOUT
                               response) hooks rs))
             = length hooks).
  { generalize hooks. intros hs. induction hs as [|h hs IH]; intros [|r rs];
      simpl; try done. intros [= Hrs]. by rewrite IH. }
  rewrite (Hcalls responses Hlen). simpl. lia.
Qed.

Lemma all_webhooks_failing_is_fail_open_witness :
  let H := Demo.all_down in
  let previous_value := [Demo.ESM_of "A" (PStr "y"); Demo.ESM_of "B" PNone] in
  exists w',
    get_excluded_shipping_data "ev" previous_value (fun _ => "P") "k"
      Demo.empty_world
    = (Ok [Demo.ESM_of "A" (PStr "y"); Demo.ESM_of "B" PNone], w')
    /\ webhook_calls (trace w') = 2.
Proof.
  intros H previous_value.
  assert (Hsome : _get_webhooks_for_event "ev" <> []) by discriminate.
  assert (Hmiss : forall cached_payload stored,
             cache Demo.empty_world !! "k" = Some (cached_payload, stored) ->
             cached_payload <> (fun _ : World => "P") Demo.empty_world).
  { intros cached_payload stored Hget. simpl in Hget. discriminate. }
  assert (Hdown : forall w' e p a t,
             truthy (webhook_response w' e p a t) = false).
  { intros w' e p a t. reflexivity. }
  assert (Htyped : methods_typed previous_value) by (repeat constructor).
  destruct (all_webhooks_failing_is_fail_open (H := H) "ev" "k" previous_value
              (fun _ => "P") Demo.empty_world Hsome Hmiss Hdown Htyped)
    as (out & w' & Hrun & Hmerge & Hcalls).
  exists w'. split; [|exact Hcalls].
  rewrite Hrun. f_equal. f_equal.
  vm_compute in Hmerge. by injection Hmerge as <-.
Defined.

(** ** The list of shipping methods of an app *)

Section ListFacts.
Context `{Collaborators}.

Lemma shipping_method_of_record a d :
  shipping_method_of a (PDict d)
  = (price ← Money (default PNone (assoc "amount" d))
               (default PNone (assoc "currency" d));
     Ok {| sm_id := to_shipping_app_id a (default PNone (assoc "id" d));
           sm_name := default PNone (assoc "name" d);
           sm_price := price;
           sm_maximum_delivery_days :=
             default PNone (assoc "maximum_delivery_days" d) |}).
Proof. reflexivity. Qed.

Lemma shipping_method_of_other a r :
  (forall d, r <> PDict d) -> shipping_method_of a r = Raise AttributeError.
Proof. intros Hr. destruct r; try reflexivity. by destruct (Hr d). Qed.

Lemma list_shipping_methods_loop_outcome a items shipping_methods :
  match list_shipping_methods_loop a items shipping_methods with
  | Ok out =>
      exists ms, out = shipping_methods ++ ms
        /\ Forall2 (fun r m => shipping_method_of a r = Ok m) items ms
  | Raise e =>
      exists before r after ms,
        items = before ++ r :: after
        /\ Forall2 (fun r m => shipping_method_of a r = Ok m) before ms
        /\ shipping_method_of a r = Raise e
  end.
Proof.
  revert shipping_methods.
  induction items as [|r rest IH]; intros acc; simpl.
  { exists []. split; [by rewrite app_nil_r|constructor]. }
  unfold mbind at 1. unfold result_bind at 1.
  destruct (shipping_method_of a r) as [m|e] eqn:Hr.
  - specialize (IH (acc ++ [m])).
    destruct (list_shipping_methods_loop a rest (acc ++ [m])) as [out|e].
    + destruct IH as (ms & -> & Hall). exists (m :: ms).
      split; [by rewrite <- app_assoc|by constructor].
    + destruct IH as (before & r' & after & ms & -> & Hall & Hr').
      exists (r :: before), r', after, (m :: ms).
      split; [done|]. split; [by constructor|done].
  - exists [], r, rest, []. split; [done|]. split; [constructor|done].
Qed.

End ListFacts.

(** C10, as the code has it: for a list of records, either every record
    is built and the answer has one method per record, in order, whose id is
    the base64 text of [app:<pk>:<id>] made by [to_shipping_app_id], or the
    first record that cannot be built raises and there is no answer at all.
    A record is built from a mapping whenever [Money] takes its amount and
    currency: a field that is missing is read as [None] (as an id it is
    written [None]); a record that is not a mapping raises. *)
Theorem list_shipping_methods_all_or_nothing `{Collaborators}
    (records : list pyval) (a : App) :
  match parse_list_shipping_methods_response (PList records) a with
  | Ok out =>
      length out = length records
      /\ Forall2
           (fun r m =>
              shipping_method_of a r = Ok m
              /\ exists d, r = PDict d
                   /\ sm_id m
                      = to_shipping_app_id a (default PNone (assoc "id" d)))
           records out
  | Raise e =>
      exists before r after ms,
        records = before ++ r :: after
        /\ Forall2 (fun r m => shipping_method_of a r = Ok m) before ms
        /\ shipping_method_of a r = Raise e
  end
  /\ (forall d,
        is_ok (shipping_method_of a (PDict d))
        = is_ok (Money (default PNone (assoc "amount" d))
                   (default PNone (assoc "currency" d))))
  /\ (forall r, (forall d, r <> PDict d) ->
        shipping_method_of a r = Raise AttributeError)
  /\ (forall s,
        to_shipping_app_id a (PStr s)
        = Base64.b64encode ("app:" +:+ str_of_int (pk a) +:+ ":" +:+ s))
  /\ to_shipping_app_id a PNone
     = Base64.b64encode ("app:" +:+ str_of_int (pk a) +:+ ":None").
Proof.
  split; [|split; [|split; [|split]]].
  - unfold parse_list_shipping_methods_response. simpl.
    pose proof (list_shipping_methods_loop_outcome a records []) as Hloop.
    destruct (list_shipping_methods_loop a records []) as [out|e];
      [|exact Hloop].
    destruct Hloop as (ms & -> & Hall). simpl.
    split; [symmetry; by eapply Forall2_length|].
    eapply Forall2_impl; [exact Hall|].
    intros r m Hr. split; [exact Hr|].
    destruct r as [|b|z|s|l|d]; try discriminate.
    exists d. split; [reflexivity|].
    rewrite shipping_method_of_record in Hr.
    destruct (Money _ _); [|discriminate].
    simpl in Hr. by injection Hr as <-.
  - intros d. rewrite shipping_method_of_record. by destruct (Money _ _).
  - apply shipping_method_of_other.
  - reflexivity.
  - reflexivity.
Qed.

(** C10, the input on which the claim as written fails: a record with no
    id does not abort the batch; its id is made from the text [None]. *)
Lemma record_without_id_is_kept :
  let H := Demo.scenario in
  parse_list_shipping_methods_response
    (PList [PDict [("name", PStr "DHL"); ("amount", PInt 10);
                   ("currency", PStr "USD")];
            PDict [("id", PStr "ups"); ("name", PStr "UPS");
                   ("amount", PInt 12); ("currency", PStr "USD")]])
    Demo.app1
  = Ok [ {| sm_id := Base64.b64encode "app:1:None";
            sm_name := PStr "DHL";
            sm_price := (10%Z, PStr "USD");
            sm_maximum_delivery_days := PNone |};
         {| sm_id := Base64.b64encode "app:1:ups";
            sm_name := PStr "UPS";
            sm_price := (12%Z, PStr "USD");
            sm_maximum_delivery_days := PNone |} ].
Proof. reflexivity. Qed.

(** ** Worked examples *)

Example b64encode_rfc4648 :
  map Base64.b64encode ["f"; "fo"; "foo"; "foob"; "fooba"; "foobar"]
  = ["Zg=="; "Zm8="; "Zm9v"; "Zm9vYg=="; "Zm9vYmE="; "Zm9vYmFy"].
Proof. reflexivity. Qed.

Example relay_shipping_method_42 :
  relay_to_global_id "ShippingMethod" "42" = "U2hpcHBpbmdNZXRob2Q6NDI="
  /\ relay_from_global_id "U2hpcHBpbmdNZXRob2Q6NDI="
     = Some ("ShippingMethod", "42").
Proof. split; reflexivity. Qed.

(** An id made by [to_shipping_app_id] decodes with the type tag [app], so
    the exclusion parser keeps it as it is. *)
Example app_id_round_trip :
  let H := Demo.scenario in
  relay_from_global_id (to_shipping_app_id Demo.app1 (PStr "dhl"))
  = Some ("app", "1:dhl").
Proof. reflexivity. Qed.

(** The scenario of the specification: W1 excludes shipping method 5, W2
    excludes the app method [APP_9], nothing comes from previous plugins. *)
Example scenario_two_webhooks :
  let H := Demo.scenario in
  fst (get_excluded_shipping_data "ev" [] (fun _ => "P") "k" Demo.empty_world)
  = Ok [Demo.ESM_of "5" (PStr "too heavy");
        Demo.ESM_of "APP_9" (PStr "restricted region")].
Proof. reflexivity. Qed.

(** A second call with the same payload is served from the cache. *)
Example scenario_second_call_hits_cache :
  let H := Demo.scenario in
  let w1 :=
    snd (get_excluded_shipping_data "ev" [] (fun _ => "P") "k"
           Demo.empty_world) in
  let run := get_excluded_shipping_data "ev" [] (fun _ => "P") "k" w1 in
  fst run
  = Ok [Demo.ESM_of "5" (PStr "too heavy");
        Demo.ESM_of "APP_9" (PStr "restricted region")]
  /\ webhook_calls (trace (snd run)) = webhook_calls (trace w1)
  /\ cache_writes (trace (snd run)) = cache_writes (trace w1).
Proof. repeat split; reflexivity. Qed.

(** A reason that is not a text reaches [join] and the call raises. *)
Example merge_raises_on_number_reason :
  merge_excluded [("A", [Demo.ESM_of "A" (PInt 5)])] [] = Raise TypeError.
Proof. reflexivity. Qed.

(** * Further properties of the module *)

(** ** Base64 and the ids of app methods *)

Section Base64Facts.

Import Base64.

Lemma value_digit (n : N) : (n < 64)%N -> value (digit n) = Some n.
Proof.
  intros Hn.
  assert (Hall : forallb
            (fun k => match value (digit (N.of_nat k)) with
                      | Some m => N.eqb m (N.of_nat k)
                      | None => false
                      end) (seq 0 64) = true) by (vm_compute; reflexivity).
  rewrite forallb_forall in Hall.
  specialize (Hall (N.to_nat n)). rewrite N2Nat.id in Hall.
  destruct (value (digit n)) as [m|].
  - f_equal. apply N.eqb_eq. apply Hall. apply in_seq. lia.
  - discriminate Hall. apply in_seq. lia.
Qed.

Lemma digit_not_pad (n : N) : (n < 64)%N -> Ascii.eqb (digit n) pad = false.
Proof.
  intros Hn.
  assert (Hall : forallb
            (fun k => negb (Ascii.eqb (digit (N.of_nat k)) pad)) (seq 0 64)
            = true) by (vm_compute; reflexivity).
  rewrite forallb_forall in Hall.
  specialize (Hall (N.to_nat n)). rewrite N2Nat.id in Hall.
  apply negb_true_iff, Hall, in_seq. lia.
Qed.

Lemma byte_bound (a : ascii) : (N_of_ascii a < 256)%N.
Proof. apply N_ascii_bounded. Qed.

Ltac bytes_arith :=
  zify; Z.to_euclidean_division_equations; lia.

Ltac same_byte a :=
  transitivity (ascii_of_N (N_of_ascii a));
  [f_equal; bytes_arith|apply ascii_N_embedding].

Lemma decode_encode_bytes (l : list ascii) :
  decode_chars (list_ascii_of_string (encode_bytes l)) = Some l.
Proof.
  assert (Hlen : forall n l, length l <= n ->
             decode_chars (list_ascii_of_string (encode_bytes l)) = Some l);
    [|by apply (Hlen (length l))].
  clear l. intros n.
  induction n as [|n IH]; intros l Hl.
  { destruct l; [reflexivity|simpl in Hl; lia]. }
  destruct l as [|a [|b [|c rest]]]; [reflexivity| | |].
  - pose proof (byte_bound a) as Ha.
    cbn [encode_bytes list_ascii_of_string decode_chars].
    rewrite ?value_digit by bytes_arith. cbn [mbind option_bind].
    change (Ascii.eqb pad pad) with true. cbn [option_bind].
    do 2 f_equal. same_byte a.
  - pose proof (byte_bound a) as Ha. pose proof (byte_bound b) as Hb.
    cbn [encode_bytes list_ascii_of_string decode_chars].
    rewrite ?value_digit by bytes_arith. cbn [mbind option_bind].
    change (Ascii.eqb pad pad) with true.
    rewrite digit_not_pad by bytes_arith.
    rewrite ?value_digit by bytes_arith. cbn [mbind option_bind].
    f_equal. f_equal; [|f_equal].
    + same_byte a.
    + same_byte b.
  - pose proof (byte_bound a) as Ha. pose proof (byte_bound b) as Hb.
    pose proof (byte_bound c) as Hc.
    cbn [encode_bytes list_ascii_of_string decode_chars].
    rewrite ?value_digit by bytes_arith. cbn [mbind option_bind].
    rewrite digit_not_pad by bytes_arith.
    rewrite ?value_digit by bytes_arith. cbn [mbind option_bind].
    rewrite IH by (simpl in Hl; lia). cbn [mbind option_bind].
    f_equal. f_equal; [|f_equal; [|f_equal]].
    + same_byte a.
    + same_byte b.
    + same_byte c.
Qed.

Lemma b64decode_b64encode (s : string) : b64decode (b64encode s) = Some s.
Proof.
  unfold b64decode, b64encode. rewrite decode_encode_bytes. simpl.
  by rewrite string_of_list_ascii_of_string.
Qed.

End Base64Facts.

Section AppIdFacts.
Context `{Collaborators}.

Lemma uint_colon_free d : colon_free (NilEmpty.string_of_uint d) = true.
Proof. induction d; simpl; auto. Qed.

Lemma str_of_int_colon_free z : colon_free (str_of_int z) = true.
Proof.
  unfold str_of_int, NilZero.string_of_int, NilZero.string_of_uint.
  destruct (Z.to_int z) as [d|d]; destruct d; simpl;
    auto using uint_colon_free.
Qed.

Lemma str_of_int_inj z z' : str_of_int z = str_of_int z' -> z = z'.
Proof.
  intros Heq.
  assert (Hparse : forall x,
             NilZero.int_of_string (str_of_int x) = Some (Z.to_int x)).
  { intros x. unfold str_of_int. apply NilZero.isi.
    - destruct x; simpl; try discriminate.
      intros [= Hnil]. by apply DecimalPos.Unsigned.to_uint_nonnil in Hnil.
    - destruct x; simpl; try discriminate.
      intros [= Hnil]. by apply DecimalPos.Unsigned.to_uint_nonnil in Hnil. }
  pose proof (Hparse z) as Hz. rewrite Heq, Hparse in Hz.
  injection Hz as Hz.
  rewrite <- (DecimalZ.of_to z), <- (DecimalZ.of_to z'). by rewrite Hz.
Qed.

Lemma split_colon_free p s :
  colon_free p = true -> split_colon (p +:+ ":" +:+ s) = Some (p, s).
Proof.
  induction p as [|c p IH]; simpl; [done|].
  intros [Hc Hp]%andb_true_iff. apply negb_true_iff in Hc.
  rewrite Hc, (IH Hp). reflexivity.
Qed.

Lemma b64encode_inj s s' :
  Base64.b64encode s = Base64.b64encode s' -> s = s'.
Proof.
  intros Heq. pose proof (b64decode_b64encode s) as Hs.
  rewrite Heq, b64decode_b64encode in Hs. by injection Hs.
Qed.

Lemma to_shipping_app_id_eq a a' v v' :
  to_shipping_app_id a v = to_shipping_app_id a' v'
  <-> pk a = pk a' /\ format_value v = format_value v'.
Proof.
  split.
  - intros Heq%b64encode_inj. unfold APP_ID_PREFIX in Heq.
    apply (f_equal split_colon) in Heq.
    rewrite !(split_colon_free "app") in Heq by reflexivity.
    injection Heq as Heq. apply (f_equal split_colon) in Heq.
    rewrite !split_colon_free in Heq by apply str_of_int_colon_free.
    injection Heq as Hpk Hv. split; [by apply str_of_int_inj|done].
  - intros [Hpk Hv]. unfold to_shipping_app_id. by rewrite Hpk, Hv.
Qed.

End AppIdFacts.

(** X1: two ids made by [to_shipping_app_id] are the same exactly when the
    apps have the same key and the method ids are written the same way; for
    method ids that are texts, exactly when they are the same text. *)
Theorem to_shipping_app_id_injective `{Collaborators}
    (a a' : App) (v v' : pyval) :
  (to_shipping_app_id a v = to_shipping_app_id a' v'
   <-> pk a = pk a' /\ format_value v = format_value v')
  /\ (forall s s',
        to_shipping_app_id a (PStr s) = to_shipping_app_id a' (PStr s')
        <-> pk a = pk a' /\ s = s').
Proof.
  split; [apply to_shipping_app_id_eq|].
  intros s s'. apply to_shipping_app_id_eq.
Qed.

(** X2: the answer of [parse_list_shipping_methods_response] carries, in
    order, the ids made from the [id] of each record; when no two records
    write their id the same way, no two methods of the answer share an
    id. *)
Theorem list_shipping_methods_distinct_ids `{Collaborators}
    (records : list pyval) (a : App) (out : list ShippingMethodData) :
  parse_list_shipping_methods_response (PList records) a = Ok out ->
  map sm_id out = map (fun r => to_shipping_app_id a (record_id r)) records
  /\ (NoDup (map (fun r => format_value (record_id r)) records) ->
      NoDup (map sm_id out)).
Proof.
  intros Hrun.
  assert (Hids : map sm_id out
                 = map (fun r => to_shipping_app_id a (record_id r)) records).
  { unfold parse_list_shipping_methods_response in Hrun. simpl in Hrun.
    pose proof (list_shipping_methods_loop_outcome a records []) as Hloop.
    rewrite Hrun in Hloop. destruct Hloop as (ms & -> & Hall). simpl.
    clear Hrun.
    induction Hall as [|r m rs ms Hr _ IH]; simpl; [done|].
    rewrite IH. f_equal.
    destruct r as [|b|z|s|l|d]; try (simpl in Hr; discriminate).
    rewrite shipping_method_of_record in Hr.
    destruct (Money _ _); [|discriminate]. simpl in Hr.
    by injection Hr as <-. }
  split; [exact Hids|]. rewrite Hids. clear Hids Hrun.
  induction records as [|r rs IH]; simpl; [constructor|].
  intros [Hr Hrs]%NoDup_cons. apply NoDup_cons. split; [|by apply IH].
  intros (r' & Heq & Hin)%list_elem_of_fmap. apply Hr.
  apply list_elem_of_fmap. exists r'. split; [|done].
  by apply to_shipping_app_id_eq in Heq as [_ Heq].
Qed.

Lemma list_shipping_methods_distinct_ids_witness :
  let H := Demo.scenario in
  let records :=
    [PDict [("id", PStr "dhl"); ("amount", PInt 10); ("currency", PStr "USD")];
     PDict [("id", PStr "ups"); ("amount", PInt 12); ("currency", PStr "USD")]] in
  exists out,
    parse_list_shipping_methods_response (PList records) Demo.app1 = Ok out
    /\ map sm_id out
       = [Base64.b64encode "app:1:dhl"; Base64.b64encode "app:1:ups"]
    /\ NoDup (map sm_id out).
Proof.
  intros H records. eexists. split; [reflexivity|].
  destruct (list_shipping_methods_distinct_ids (H := H) records Demo.app1 _
              eq_refl) as [Hids Hdistinct].
  split; [exact Hids|]. apply Hdistinct.
  refine (bool_decide_unpack _ _). vm_compute. exact I.
Defined.

(** ** More on the response parser *)

Section ParserOutcomes.
Context `{Collaborators}.

Lemma omap_parse_texts (l : list pyval) :
  Forall (fun e => exists s, e = PStr s) l ->
  omap ResponseParser_parse l = [].
Proof.
  induction 1 as [|e l [s ->] _ IH]; [done|]. csimpl. exact IH.
Qed.

(** Every way [get_excluded_shipping_methods_from_response] can end. *)
Lemma from_response_cases response :
  match get_excluded_shipping_methods_from_response response with
  | Ok out =>
      exists d, response = PDict d /\
        match assoc "excluded_methods" d with
        | None => out = []
        | Some (PList entries) => out = omap ResponseParser_parse entries
        | Some (PStr _) | Some (PDict _) => out = []
        | Some _ => False
        end
  | Raise e =>
      (e = AttributeError /\ forall d, response <> PDict d)
      \/ (e = TypeError /\
          exists d v, response = PDict d
            /\ assoc "excluded_methods" d = Some v
            /\ py_iter v = Raise TypeError)
  end.
Proof.
  destruct response as [|b|z|s|l|d]; try (left; split; [reflexivity|done]).
  unfold get_excluded_shipping_methods_from_response. simpl.
  destruct (assoc "excluded_methods" d) as [[|b|z|s|l|d']|] eqn:Hd; simpl;
    try (right; split; [reflexivity|]; do 2 eexists; by repeat split).
  - rewrite excluded_methods_loop_parse. exists d. rewrite Hd.
    split; [done|]. apply omap_parse_texts.
    apply Forall_forall. intros e (c & -> & _)%list_elem_of_fmap. eauto.
  - rewrite excluded_methods_loop_parse. exists d. by rewrite Hd.
  - rewrite excluded_methods_loop_parse. exists d. rewrite Hd.
    split; [done|]. apply omap_parse_texts.
    apply Forall_forall. intros e (kv & -> & _)%list_elem_of_fmap. eauto.
  - exists d. by rewrite Hd.
Qed.

Lemma from_response_raises response e :
  get_excluded_shipping_methods_from_response response = Raise e ->
  e = AttributeError \/ e = TypeError.
Proof.
  intros Hrun. pose proof (from_response_cases response) as Hcases.
  rewrite Hrun in Hcases. destruct Hcases as [[-> _]|[-> _]]; auto.
Qed.

Lemma parse_sound entry r :
  ResponseParser_parse entry = Some r ->
  exists d token typeTag rawId,
    entry = PDict d
    /\ assoc "id" d = Some (PStr token)
    /\ from_global_id token = Some (typeTag, rawId)
    /\ ((typeTag = "app" /\ RawExclusion.id r = token)
        \/ (typeTag = "ShippingMethod" /\ RawExclusion.id r = rawId)).
Proof.
  destruct entry as [|b|z|s|l|d]; simpl; try discriminate.
  destruct (assoc "id" d) as [[|b|z|token|l|d']|] eqn:Hid; try discriminate.
  destruct (from_global_id token) as [[typeTag rawId]|] eqn:Hdec;
    try discriminate.
  intros Hparse. exists d, token, typeTag, rawId.
  split; [done|]. split; [done|]. split; [done|].
  repeat case_decide; simplify_eq; auto.
Qed.

End ParserOutcomes.

(** X3: how a call of [get_excluded_shipping_methods_from_response] can
    end.  It returns only for a mapping: the parsed entries of a list under
    [excluded_methods], and nothing when the key is not there or holds a
    text or a mapping (whose items are no entries).  It raises
    [AttributeError] for a body that is not a mapping and [TypeError] for
    a value under [excluded_methods] that cannot be iterated. *)
Theorem from_response_outcomes `{Collaborators} (response : pyval) :
  match get_excluded_shipping_methods_from_response response with
  | Ok out =>
      exists d, response = PDict d /\
        match assoc "excluded_methods" d with
        | None => out = []
        | Some (PList entries) => out = omap ResponseParser_parse entries
        | Some (PStr _) | Some (PDict _) => out = []
        | Some _ => False
        end
  | Raise e =>
      (e = AttributeError /\ forall d, response <> PDict d)
      \/ (e = TypeError /\
          exists d v, response = PDict d
            /\ assoc "excluded_methods" d = Some v
            /\ (v = PNone \/ (exists b, v = PBool b) \/ exists z, v = PInt z))
  end.
Proof.
  pose proof (from_response_cases response) as Hcases.
  destruct (get_excluded_shipping_methods_from_response response) as [out|e];
    [exact Hcases|].
  destruct Hcases as [Hattr|[-> (d & v & -> & Hv & Hiter)]]; [by left|].
  right. split; [done|]. exists d, v. split; [done|]. split; [done|].
  destruct v; try discriminate; eauto.
Qed.

(** X4: the parser treats the entries of a batch one by one: the answer for
    two batches put end to end is the two answers put end to end. *)
Theorem from_response_app `{Collaborators} (entries1 entries2 : list pyval) :
  exists out1 out2,
    get_excluded_shipping_methods_from_response
      (PDict [("excluded_methods", PList entries1)]) = Ok out1
    /\ get_excluded_shipping_methods_from_response
         (PDict [("excluded_methods", PList entries2)]) = Ok out2
    /\ get_excluded_shipping_methods_from_response
         (PDict [("excluded_methods", PList (entries1 ++ entries2))])
       = Ok (out1 ++ out2).
Proof.
  exists (omap ResponseParser_parse entries1),
         (omap ResponseParser_parse entries2).
  rewrite !(from_response_list [("excluded_methods", PList _)] _ eq_refl).
  by rewrite omap_app.
Qed.

(** X5: every record of the answer comes from an entry of the batch that
    is a mapping whose id is a text that decodes; its id is the token when
    the type is [app] and the raw id when the type is [ShippingMethod]:
    no other type ever gets through. *)
Theorem from_response_sound `{Collaborators} (entries : list pyval) :
  exists out,
    get_excluded_shipping_methods_from_response
      (PDict [("excluded_methods", PList entries)]) = Ok out
    /\ Forall
         (fun r =>
            exists d token typeTag rawId,
              PDict d ∈ entries
              /\ assoc "id" d = Some (PStr token)
              /\ from_global_id token = Some (typeTag, rawId)
              /\ ((typeTag = "app" /\ RawExclusion.id r = token)
                  \/ (typeTag = "ShippingMethod" /\ RawExclusion.id r = rawId)))
         out.
Proof.
  exists (omap ResponseParser_parse entries).
  split; [by apply from_response_list|].
  apply Forall_forall. intros r (entry & Hin & Hparse)%list_elem_of_omap.
  destruct (parse_sound entry r Hparse)
    as (d & token & typeTag & rawId & -> & Hrest).
  exists d, token, typeTag, rawId. by split.
Qed.

(** ** Every run of the fetch *)

Section RunFacts.
Context `{Collaborators}.

(** The events of the calls made to the first webhooks of the list. *)
Lemma gather_responses_run webhooks event_type payload excluded_methods w :
  exists called responses,
    length responses = length called
    /\ snd (gather_responses webhooks event_type payload excluded_methods w)
       = {| cache := cache w;
            trace := trace w
              ++ zip_with
                   (fun webhook response =>
                      TriggerWebhookSync event_type payload (app webhook)
                        EXCLUDED_SHIPPING_REQUEST_TIMEOUT response)
                   called responses |}
    /\ match fst (gather_responses webhooks event_type payload
                    excluded_methods w) with
       | Ok out =>
           called = webhooks
           /\ out = excluded_methods ++ concat (map contribution responses)
       | Raise e =>
           (e = AttributeError \/ e = TypeError)
           /\ exists rest, webhooks = called ++ rest
       end.
Proof.
  revert excluded_methods w.
  induction webhooks as [|webhook rest IH]; intros acc w.
  { exists [], []. simpl. rewrite !app_nil_r. by destruct w. }
  simpl. unfold mbind, M_bind, trigger_webhook_sync at 1. simpl.
  set (r := webhook_response w event_type payload (app webhook)
              EXCLUDED_SHIPPING_REQUEST_TIMEOUT).
  set (w1 := log (TriggerWebhookSync event_type payload (app webhook)
                    EXCLUDED_SHIPPING_REQUEST_TIMEOUT r) w).
  destruct (truthy r) eqn:Htruthy.
  - unfold lift.
    destruct (get_excluded_shipping_methods_from_response r) as [l|e] eqn:Hl.
    + destruct (IH (acc ++ l) w1) as (called & responses & Hlen & Hw & Hr).
      exists (webhook :: called), (r :: responses).
      split; [simpl; by rewrite Hlen|]. split.
      { rewrite Hw. simpl. by rewrite <- app_assoc. }
      destruct (fst (gather_responses rest event_type payload (acc ++ l) w1))
        as [out|e].
      * destruct Hr as [-> ->]. split; [done|]. simpl.
        unfold contribution at 2. rewrite Htruthy, Hl. by rewrite app_assoc.
      * destruct Hr as [He [rest' ->]]. split; [done|]. by exists rest'.
    + exists [webhook], [r]. simpl. split; [done|]. split; [done|].
      split; [by eapply from_response_raises|]. by exists rest.
  - destruct (IH acc w1) as (called & responses & Hlen & Hw & Hr).
    exists (webhook :: called), (r :: responses).
    split; [simpl; by rewrite Hlen|]. split.
    { rewrite Hw. simpl. by rewrite <- app_assoc. }
    destruct (fst (gather_responses rest event_type payload acc w1))
      as [out|e].
    + destruct Hr as [-> ->]. split; [done|]. simpl.
      by rewrite (falsy_contribution r Htruthy).
    + destruct Hr as [He [rest' ->]]. split; [done|]. by exists rest'.
Qed.

(** A run of the fetch proper: all the calls, then the write; or some of
    the calls and an exception. *)
Lemma fetch_from_webhooks_run webhooks event_type payload cache_key w :
  exists called responses,
    length responses = length called
    /\ match fetch_from_webhooks webhooks event_type payload cache_key w with
       | (Ok m, w') =>
           called = webhooks
           /\ m = parse_excluded_shipping_methods
                    (concat (map contribution responses))
           /\ w' = {| cache :=
                        <[cache_key :=
                            (payload, concat (map contribution responses))]>
                          (cache w);
                      trace := trace w
                        ++ zip_with
                             (fun webhook response =>
                                TriggerWebhookSync event_type payload
                                  (app webhook)
                                  EXCLUDED_SHIPPING_REQUEST_TIMEOUT response)
                             called responses
                        ++ [CacheSet cache_key
                              (payload, concat (map contribution responses))
                              CACHE_EXCLUDED_SHIPPING_TIME] |}
       | (Raise e, w') =>
           (e = AttributeError \/ e = TypeError)
           /\ (exists rest, webhooks = called ++ rest)
           /\ w' = {| cache := cache w;
                      trace := trace w
                        ++ zip_with
                             (fun webhook response =>
                                TriggerWebhookSync event_type payload
                                  (app webhook)
                                  EXCLUDED_SHIPPING_REQUEST_TIMEOUT response)
                             called responses |}
       end.
Proof.
  destruct (gather_responses_run webhooks event_type payload [] w)
    as (called & responses & Hlen & Hw & Hr).
  exists called, responses. split; [exact Hlen|].
  unfold fetch_from_webhooks, mbind, M_bind.
  destruct (gather_responses webhooks event_type payload [] w) as [[out|e] w1].
  - simpl in Hw, Hr. destruct Hr as [-> ->]. subst w1. simpl.
    unfold log. simpl. split; [done|]. split; [done|].
    by rewrite <- app_assoc.
  - simpl in Hw, Hr. destruct Hr as [He Hrest]. by subst w1.
Qed.

Lemma or_fetch_hit webhooks event_type payload cache_key stored w :
  cache w !! cache_key = Some (payload, stored) ->
  get_excluded_shipping_methods_or_fetch webhooks event_type payload cache_key w
  = (Ok (parse_excluded_shipping_methods stored), log (CacheGet cache_key) w).
Proof.
  intros Hget.
  unfold get_excluded_shipping_methods_or_fetch, mbind, M_bind, cache_get.
  simpl. rewrite Hget, String.eqb_refl. reflexivity.
Qed.

(** Hit or miss. *)
Lemma or_fetch_hit_or_miss webhooks event_type payload cache_key w :
  (exists stored,
      cache w !! cache_key = Some (payload, stored)
      /\ get_excluded_shipping_methods_or_fetch webhooks event_type payload
           cache_key w
         = (Ok (parse_excluded_shipping_methods stored),
            log (CacheGet cache_key) w))
  \/ get_excluded_shipping_methods_or_fetch webhooks event_type payload
       cache_key w
     = fetch_from_webhooks webhooks event_type payload cache_key
         (log (CacheGet cache_key) w).
Proof.
  destruct (cache w !! cache_key) as [[cached_payload stored]|] eqn:Hget.
  - destruct (decide (cached_payload = payload)) as [->|Hne].
    + left. exists stored. split; [done|]. by apply or_fetch_hit.
    + right. apply or_fetch_miss. intros p s Hps. by simplify_eq.
  - right. apply or_fetch_miss. intros p s Hps. by simplify_eq.
Qed.

(** The shape of every run of [get_excluded_shipping_methods_or_fetch]. *)
Lemma or_fetch_run webhooks event_type payload cache_key w :
  exists called responses written,
    length responses = length called
    /\ (exists rest, webhooks = called ++ rest)
    /\ trace (snd (get_excluded_shipping_methods_or_fetch webhooks event_type
                     payload cache_key w))
       = trace w ++ CacheGet cache_key
           :: zip_with
                (fun webhook response =>
                   TriggerWebhookSync event_type payload (app webhook)
                     EXCLUDED_SHIPPING_REQUEST_TIMEOUT response)
                called responses
           ++ match written with
              | Some raw =>
                  [CacheSet cache_key (payload, raw)
                     CACHE_EXCLUDED_SHIPPING_TIME]
              | None => []
              end
    /\ cache (snd (get_excluded_shipping_methods_or_fetch webhooks event_type
                     payload cache_key w))
       = match written with
         | Some raw => <[cache_key := (payload, raw)]> (cache w)
         | None => cache w
         end
    /\ match fst (get_excluded_shipping_methods_or_fetch webhooks event_type
                    payload cache_key w) with
       | Ok m =>
           exists raw,
             m = parse_excluded_shipping_methods raw
             /\ cache (snd (get_excluded_shipping_methods_or_fetch webhooks
                              event_type payload cache_key w)) !! cache_key
                = Some (payload, raw)
       | Raise e => (e = AttributeError \/ e = TypeError) /\ written = None
       end.
Proof.
  destruct (or_fetch_hit_or_miss webhooks event_type payload cache_key w)
    as [(stored & Hget & ->)| ->].
  { exists [], [], None. simpl.
    split; [done|]. split; [by exists webhooks|]. split; [done|].
    split; [done|]. by exists stored. }
  destruct (fetch_from_webhooks_run webhooks event_type payload cache_key
              (log (CacheGet cache_key) w))
    as (called & responses & Hlen & Hrun).
  destruct (fetch_from_webhooks webhooks event_type payload cache_key
              (log (CacheGet cache_key) w)) as [[m|e] w'].
  - destruct Hrun as (-> & -> & ->).
    exists webhooks, responses, (Some (concat (map contribution responses))).
    simpl. split; [done|]. split; [exists []; by rewrite app_nil_r|].
    split; [by rewrite <- app_assoc|]. split; [done|].
    eexists. split; [done|]. apply lookup_insert_eq.
  - destruct Hrun as (He & Hrest & ->).
    exists called, responses, None. simpl. rewrite ?app_nil_r.
    split; [done|]. split; [done|]. split; [by rewrite <- app_assoc|].
    done.
Qed.

End RunFacts.

(** ** More on the grouping and the merge *)

Section GroupingFacts.

Implicit Types (d : methods_map) (k : string) (v : ESM).

Lemma all_methods_dict_append k v d :
  all_methods (dict_append k v d) ≡ₚ all_methods d ++ [v].
Proof.
  unfold all_methods. induction d as [|[k' vs] d IH]; simpl; [done|].
  destruct (String.eqb k' k); simpl.
  - rewrite <- !app_assoc. apply Permutation_app_head, Permutation_app_comm.
  - rewrite IH. by rewrite app_assoc.
Qed.

Lemma all_methods_gather_previous d previous_value :
  all_methods (gather_previous d previous_value)
  ≡ₚ all_methods d ++ previous_value.
Proof.
  unfold gather_previous. revert d.
  induction previous_value as [|m rest IH]; intros d; simpl.
  { by rewrite app_nil_r. }
  rewrite IH, all_methods_dict_append, <- app_assoc. done.
Qed.

(** A map whose buckets are not empty and hold methods of their key. *)
Lemma buckets_dict_append k v d :
  ExcludedShippingMethod.id v = k ->
  Forall (fun kv => snd kv <> []
            /\ Forall (fun m => ExcludedShippingMethod.id m = fst kv) (snd kv))
    d ->
  Forall (fun kv => snd kv <> []
            /\ Forall (fun m => ExcludedShippingMethod.id m = fst kv) (snd kv))
    (dict_append k v d).
Proof.
  intros <-. induction d as [|[k' vs] d IH]; simpl; intros Hd.
  { constructor; [|constructor]. simpl. split; [done|]. by constructor. }
  apply Forall_cons in Hd as [[Hne Hvs] Hd]. simpl in Hne, Hvs.
  destruct (String.eqb_spec k' (ExcludedShippingMethod.id v)) as [->|Hk];
    constructor; simpl; auto.
  split; [by destruct vs|]. apply Forall_app. split; [done|]. by constructor.
Qed.

Lemma buckets_gather_previous d previous_value :
  Forall (fun kv => snd kv <> []
            /\ Forall (fun m => ExcludedShippingMethod.id m = fst kv) (snd kv))
    d ->
  Forall (fun kv => snd kv <> []
            /\ Forall (fun m => ExcludedShippingMethod.id m = fst kv) (snd kv))
    (gather_previous d previous_value).
Proof.
  unfold gather_previous. revert d.
  induction previous_value as [|m rest IH]; intros d Hd; simpl; [done|].
  apply IH. by apply buckets_dict_append.
Qed.

Lemma with_id_map_raw k (raws : list RawExclusion.t) :
  with_id k
    (map (fun r => ExcludedShippingMethod.mk (RawExclusion.id r)
                     (RawExclusion.reason r)) raws)
  = map (fun r => ExcludedShippingMethod.mk (RawExclusion.id r)
                    (RawExclusion.reason r))
      (List.filter (fun r => String.eqb (RawExclusion.id r) k) raws).
Proof.
  unfold with_id. induction raws as [|r raws IH]; simpl; [done|].
  destruct (String.eqb (RawExclusion.id r) k); simpl; by rewrite IH.
Qed.

Lemma py_strings_raises items e :
  py_strings items = Raise e -> e = TypeError.
Proof.
  induction items as [|v items IH]; simpl; [discriminate|].
  destruct v; try (by intros [= <-]).
  destruct (py_strings items); simpl; [discriminate|].
  intros [= <-]. by apply IH.
Qed.

Lemma concat_space_nonempty s ss : s <> "" -> String.concat " " (s :: ss) <> "".
Proof.
  intros Hs. destruct s as [|c s]; [done|].
  simpl. by destruct ss.
Qed.

Lemma merged_reason_outcome methods :
  match merged_reason methods with
  | Ok reason => reason = PNone \/ exists s, reason = PStr s /\ s <> ""
  | Raise e => e = TypeError
  end.
Proof.
  unfold merged_reason.
  destruct (List.filter truthy (map ExcludedShippingMethod.reason methods))
    as [|v reasons] eqn:Hfilter; [by left|].
  assert (Hv : truthy v = true).
  { assert (Hin : In v (List.filter truthy
                          (map ExcludedShippingMethod.reason methods)))
      by (rewrite Hfilter; by left).
    by apply filter_In in Hin as [_ Hin]. }
  unfold py_join, mbind, result_bind.
  destruct (py_strings (v :: reasons)) as [ss|e] eqn:Hss;
    [|by eapply py_strings_raises].
  right. eexists. split; [done|].
  destruct v as [|b|z|s|l|d]; try discriminate. simpl in Hss.
  destruct (py_strings reasons) as [ss'|]; [|discriminate].
  simpl in Hss. injection Hss as <-.
  apply concat_space_nonempty. simpl in Hv. by destruct s.
Qed.

Lemma py_strings_ok items :
  is_ok (py_strings items) = true <-> Forall (fun x : pyval => exists s, x = PStr s) items.
Proof.
  induction items as [|v items IH]; simpl.
  { split; [constructor|done]. }
  rewrite Forall_cons, <- IH.
  destruct v as [|b|z|s|l|d]; simpl;
    try (split; [discriminate|by intros [[s [=]] _]]).
  destruct (py_strings items); simpl; split; eauto; by intros [_ ?].
Qed.

Lemma merged_reason_ok methods :
  is_ok (merged_reason methods) = true <-> Forall joinable methods.
Proof.
  unfold merged_reason.
  assert (Hall : Forall (fun x : pyval => exists s, x = PStr s)
                   (List.filter truthy
                      (map ExcludedShippingMethod.reason methods))
                 <-> Forall joinable methods).
  { induction methods as [|m methods IH]; simpl.
    { split; constructor. }
    rewrite Forall_cons, <- IH. unfold joinable at 1.
    destruct (truthy (ExcludedShippingMethod.reason m)).
    - rewrite Forall_cons. tauto.
    - split; [by intros ?; split|tauto]. }
  rewrite <- Hall, <- py_strings_ok.
  destruct (List.filter truthy (map ExcludedShippingMethod.reason methods))
    as [|v reasons]; [done|].
  unfold py_join, mbind, result_bind. by destruct (py_strings (v :: reasons)).
Qed.

Lemma unique_by_id_outcome items excluded_methods :
  match unique_by_id items excluded_methods with
  | Ok out =>
      exists added,
        out = excluded_methods ++ added
        /\ ids added = keys items
        /\ Forall (fun m =>
                     ExcludedShippingMethod.reason m = PNone
                     \/ exists s, ExcludedShippingMethod.reason m = PStr s
                          /\ s <> "") added
  | Raise e => e = TypeError
  end.
Proof.
  revert excluded_methods.
  induction items as [|[k methods] items IH]; intros acc; simpl.
  { exists []. by rewrite app_nil_r. }
  unfold mbind at 1. unfold result_bind at 1.
  pose proof (merged_reason_outcome methods) as Hreason.
  destruct (merged_reason methods) as [reason|e]; [|done].
  specialize (IH (acc ++ [ExcludedShippingMethod.mk k reason])).
  destruct (unique_by_id items _) as [out|e]; [|done].
  destruct IH as (added & -> & Hids & Hall).
  exists (ExcludedShippingMethod.mk k reason :: added).
  split; [by rewrite <- app_assoc|]. split; [simpl; by rewrite Hids|].
  by constructor.
Qed.

Lemma unique_by_id_ok items excluded_methods :
  is_ok (unique_by_id items excluded_methods) = true
  <-> Forall joinable (all_methods items).
Proof.
  revert excluded_methods. unfold all_methods.
  induction items as [|[k methods] items IH]; intros acc; simpl.
  { split; [constructor|done]. }
  rewrite Forall_app, <- merged_reason_ok.
  unfold mbind at 1. unfold result_bind at 1.
  destruct (merged_reason methods) as [reason|e]; simpl.
  - rewrite IH. tauto.
  - split; [discriminate|by intros [? _]].
Qed.

End GroupingFacts.

(** X6: [parse_excluded_shipping_methods] groups by id and keeps the
    order: its keys are the ids in the order they are first met, each once,
    and the bucket of an id holds, in order, the entries with that id. *)
Theorem parse_excluded_shipping_methods_groups (raws : list RawExclusion.t) :
  keys (parse_excluded_shipping_methods raws)
  = first_seen [] (map RawExclusion.id raws)
  /\ NoDup (keys (parse_excluded_shipping_methods raws))
  /\ forall k,
       bucket k (parse_excluded_shipping_methods raws)
       = map (fun r => ExcludedShippingMethod.mk (RawExclusion.id r)
                         (RawExclusion.reason r))
           (List.filter (fun r => String.eqb (RawExclusion.id r) k) raws).
Proof.
  split; [|split; [apply NoDup_keys_parse|]].
  - rewrite parse_excluded_shipping_methods_gather, keys_gather_previous.
    simpl. unfold ids. by rewrite map_map.
  - intros k.
    rewrite parse_excluded_shipping_methods_gather, bucket_gather_previous.
    simpl. apply with_id_map_raw.
Qed.

(** X7: the grouping loses nothing and invents nothing: the methods of all
    the buckets are the entries, up to the order; no bucket is empty and
    every method sits in the bucket of its own id. *)
Theorem parse_excluded_shipping_methods_keeps_all (raws : list RawExclusion.t) :
  all_methods (parse_excluded_shipping_methods raws)
  ≡ₚ map (fun r => ExcludedShippingMethod.mk (RawExclusion.id r)
                     (RawExclusion.reason r)) raws
  /\ Forall (fun kv => snd kv <> []
               /\ Forall (fun m => ExcludedShippingMethod.id m = fst kv)
                    (snd kv))
       (parse_excluded_shipping_methods raws).
Proof.
  rewrite parse_excluded_shipping_methods_gather. split.
  - by rewrite all_methods_gather_previous.
  - apply buckets_gather_previous. constructor.
Qed.

(** X8: however [merge_excluded] ends, the only exception is [TypeError];
    an answer has one entry per key of the gathered map, in its order, and
    a reason in it is [None] or a text that is not empty, never the empty
    text. *)
Theorem merge_excluded_outcome
    (fetched : methods_map) (previous_value : list ESM) :
  match merge_excluded fetched previous_value with
  | Ok out =>
      ids out = keys (gather_previous fetched previous_value)
      /\ Forall (fun m =>
                   ExcludedShippingMethod.reason m = PNone
                   \/ exists s, ExcludedShippingMethod.reason m = PStr s
                        /\ s <> "") out
  | Raise e => e = TypeError
  end.
Proof.
  unfold merge_excluded.
  pose proof (unique_by_id_outcome
                (gather_previous fetched previous_value) []) as Hrun.
  destruct (unique_by_id _ []) as [out|e]; [|done].
  by destruct Hrun as (added & -> & Hids & Hall).
Qed.

(** X9: [merge_excluded] returns exactly when every reason that is truthy
    is a text, in the fetched map and in the previous list; a falsy reason
    of any kind does no harm. *)
Theorem merge_excluded_returns_iff
    (fetched : methods_map) (previous_value : list ESM) :
  is_ok (merge_excluded fetched previous_value) = true
  <-> Forall joinable (all_methods fetched ++ previous_value).
Proof.
  unfold merge_excluded.
  by rewrite unique_by_id_ok, all_methods_gather_previous.
Qed.

(** ** Every run of the pipeline *)

Section PipelineFacts.
Context `{Collaborators}.

Lemma filter_webhook_events (keep : Event -> bool) event_type payload
    (called : list Webhook) (responses : list pyval) :
  (forall a r,
      keep (TriggerWebhookSync event_type payload a
              EXCLUDED_SHIPPING_REQUEST_TIMEOUT r) = false) ->
  List.filter keep
    (zip_with
       (fun webhook response =>
          TriggerWebhookSync event_type payload (app webhook)
            EXCLUDED_SHIPPING_REQUEST_TIMEOUT response)
       called responses) = [].
Proof.
  intros Hkeep. revert responses.
  induction called as [|c called IH]; intros [|r responses]; simpl; try done.
  by rewrite Hkeep, IH.
Qed.

Lemma length_webhook_events event_type payload
    (called : list Webhook) (responses : list pyval) :
  length responses = length called ->
  length (List.filter is_webhook_call
            (zip_with
               (fun webhook response =>
                  TriggerWebhookSync event_type payload (app webhook)
                    EXCLUDED_SHIPPING_REQUEST_TIMEOUT response)
               called responses)) = length called.
Proof.
  revert responses.
  induction called as [|c called IH]; intros [|r responses]; simpl; try done.
  intros [= Hlen]. by rewrite IH.
Qed.

Lemma get_excluded_shipping_data_run event_type previous_value payload_fun
    cache_key w :
  get_excluded_shipping_data event_type previous_value payload_fun cache_key w
  = match _get_webhooks_for_event event_type with
    | [] => (merge_excluded [] previous_value, w)
    | webhooks =>
        match get_excluded_shipping_methods_or_fetch webhooks event_type
                (payload_fun w) cache_key (log (PayloadFun (payload_fun w)) w)
        with
        | (Ok m, w') => (merge_excluded m previous_value, w')
        | (Raise e, w') => (Raise e, w')
        end
    end.
Proof.
  unfold get_excluded_shipping_data.
  destruct (_get_webhooks_for_event event_type) as [|webhook rest];
    reflexivity.
Qed.

Lemma merge_excluded_cases (fetched : methods_map) (previous_value : list ESM) :
  match merge_excluded fetched previous_value with
  | Ok out =>
      ids out = keys (gather_previous fetched previous_value)
      /\ Forall (fun m =>
                   ExcludedShippingMethod.reason m = PNone
                   \/ exists s, ExcludedShippingMethod.reason m = PStr s
                        /\ s <> "") out
  | Raise e => e = TypeError
  end.
Proof.
  unfold merge_excluded.
  pose proof (unique_by_id_outcome
                (gather_previous fetched previous_value) []) as Hrun.
  destruct (unique_by_id _ []) as [out|e]; [|done].
  by destruct Hrun as (added & -> & Hids & Hall).
Qed.

End PipelineFacts.

(** X10: in every run of [get_excluded_shipping_methods_or_fetch], also one
    that raises, the cache is read first; then webhooks are called in the
    order of the registry, from the first one on and each at most once,
    always with the event type, the payload and the timeout; a write to the
    cache, if any, comes last and is the only one. *)
Theorem fetch_calls_follow_registry `{Collaborators}
    (webhooks : list Webhook) (event_type payload cache_key : string)
    (w : World) :
  let w' :=
    snd (get_excluded_shipping_methods_or_fetch webhooks event_type payload
           cache_key w) in
  exists called responses written,
    (exists rest, webhooks = called ++ rest)
    /\ length responses = length called
    /\ trace w'
       = trace w ++ CacheGet cache_key
           :: zip_with
                (fun webhook response =>
                   TriggerWebhookSync event_type payload (app webhook)
                     EXCLUDED_SHIPPING_REQUEST_TIMEOUT response)
                called responses
           ++ match written with
              | Some raw =>
                  [CacheSet cache_key (payload, raw)
                     CACHE_EXCLUDED_SHIPPING_TIME]
              | None => []
              end
    /\ webhook_calls (trace w') <= webhook_calls (trace w) + length webhooks
    /\ cache_writes (trace w') <= cache_writes (trace w) + 1.
Proof.
  intros w'. subst w'.
  destruct (or_fetch_run webhooks event_type payload cache_key w)
    as (called & responses & written & Hlen & [rest Hrest] & Htrace & _).
  exists called, responses, written.
  split; [by exists rest|]. split; [exact Hlen|]. split; [exact Htrace|].
  rewrite Htrace. unfold webhook_calls, cache_writes.
  rewrite !List.filter_app, !length_app. simpl.
  rewrite !List.filter_app, !length_app.
  rewrite (length_webhook_events _ _ _ _ Hlen).
  rewrite (filter_webhook_events is_cache_write) by done.
  rewrite Hrest, length_app. destruct written; simpl; lia.
Qed.

(** X11: a run of [get_excluded_shipping_methods_or_fetch] leaves every
    other key of the cache as it was. *)
Theorem fetch_leaves_other_keys `{Collaborators}
    (webhooks : list Webhook) (event_type payload cache_key other : string)
    (w : World) :
  other <> cache_key ->
  cache (snd (get_excluded_shipping_methods_or_fetch webhooks event_type
                payload cache_key w)) !! other
  = cache w !! other.
Proof.
  intros Hother.
  destruct (or_fetch_run webhooks event_type payload cache_key w)
    as (called & responses & written & _ & _ & _ & Hcache & _).
  rewrite Hcache. destruct written; [|done]. by apply lookup_insert_ne.
Qed.

Lemma fetch_leaves_other_keys_witness :
  let H := Demo.scenario in
  let w := {| cache := {["other" := ("Q", [])]}; trace := [] |} in
  "other" <> "k"
  /\ cache (snd (get_excluded_shipping_methods_or_fetch [Demo.W1; Demo.W2]
                   "ev" "P" "k" w)) !! "other"
     = Some ("Q", []).
Proof.
  intros H w.
  assert (Hother : "other" <> "k") by discriminate.
  split; [exact Hother|].
  rewrite (fetch_leaves_other_keys (H := H) [Demo.W1; Demo.W2] "ev" "P" "k"
             "other" w Hother).
  reflexivity.
Defined.

(** X12: how [get_excluded_shipping_methods_or_fetch] ends.  When it
    returns, the cache holds under the key the payload of the call and a
    list of which the answer is the grouping.  When it raises, the exception
    is [AttributeError] or [TypeError], and the cache is as it was:
    nothing was written. *)
Theorem fetch_outcomes `{Collaborators}
    (webhooks : list Webhook) (event_type payload cache_key : string)
    (w : World) :
  let run :=
    get_excluded_shipping_methods_or_fetch webhooks event_type payload
      cache_key w in
  match fst run with
  | Ok m =>
      exists raw,
        m = parse_excluded_shipping_methods raw
        /\ cache (snd run) !! cache_key = Some (payload, raw)
  | Raise e =>
      (e = AttributeError \/ e = TypeError)
      /\ cache (snd run) = cache w
      /\ cache_writes (trace (snd run)) = cache_writes (trace w)
  end.
Proof.
  intros run. subst run.
  destruct (or_fetch_run webhooks event_type payload cache_key w)
    as (called & responses & written & Hlen & _ & Htrace & Hcache & Hend).
  destruct (fst (get_excluded_shipping_methods_or_fetch webhooks event_type
                   payload cache_key w)) as [m|e]; [exact Hend|].
  destruct Hend as [He ->]. split; [exact He|]. split; [exact Hcache|].
  rewrite Htrace. unfold cache_writes.
  rewrite List.filter_app, length_app. simpl.
  rewrite List.filter_app, (filter_webhook_events is_cache_write) by done.
  simpl. lia.
Qed.

(** X13: after a call that returned, the same call again is served from
    the cache: it gives the same answer, calls no webhook and writes
    nothing. *)
Theorem fetch_again_hits_cache `{Collaborators}
    (webhooks : list Webhook) (event_type payload cache_key : string)
    (w : World) (m : methods_map) :
  let run :=
    get_excluded_shipping_methods_or_fetch webhooks event_type payload
      cache_key w in
  fst run = Ok m ->
  get_excluded_shipping_methods_or_fetch webhooks event_type payload
    cache_key (snd run)
  = (Ok m, log (CacheGet cache_key) (snd run)).
Proof.
  intros run Hrun. subst run.
  destruct (or_fetch_run webhooks event_type payload cache_key w)
    as (called & responses & written & _ & _ & _ & _ & Hend).
  rewrite Hrun in Hend. destruct Hend as (raw & -> & Hget).
  by apply or_fetch_hit.
Qed.

Lemma fetch_again_hits_cache_witness :
  let H := Demo.scenario in
  let run :=
    get_excluded_shipping_methods_or_fetch [Demo.W1; Demo.W2] "ev" "P" "k"
      Demo.empty_world in
  exists m,
    fst run = Ok m
    /\ get_excluded_shipping_methods_or_fetch [Demo.W1; Demo.W2] "ev" "P" "k"
         (snd run)
       = (Ok m, log (CacheGet "k") (snd run)).
Proof.
  intros H run. eexists. split; [reflexivity|].
  exact (fetch_again_hits_cache (H := H) [Demo.W1; Demo.W2] "ev" "P" "k"
           Demo.empty_world _ eq_refl).
Defined.

(** X14: with subscribers and, under the key, the payload that
    [payload_fun] gives, [get_excluded_shipping_data] calls [payload_fun]
    once, reads the cache, calls no webhook, and answers with the merge of
    what is stored and the previous list. *)
Theorem shipping_data_from_cache `{Collaborators}
    (event_type cache_key : string) (previous_value : list ESM)
    (payload_fun : World -> string) (stored : list RawExclusion.t)
    (w : World) :
  _get_webhooks_for_event event_type <> [] ->
  cache w !! cache_key = Some (payload_fun w, stored) ->
  get_excluded_shipping_data event_type previous_value payload_fun cache_key w
  = (merge_excluded (parse_excluded_shipping_methods stored) previous_value,
     {| cache := cache w;
        trace := trace w ++ [PayloadFun (payload_fun w); CacheGet cache_key] |}).
Proof.
  intros Hsome Hget. rewrite get_excluded_shipping_data_run.
  destruct (_get_webhooks_for_event event_type) as [|webhook rest]; [done|].
  rewrite (or_fetch_hit _ _ _ _ stored) by exact Hget.
  unfold log. simpl. by rewrite <- app_assoc.
Qed.

Lemma shipping_data_from_cache_witness :
  let H := Demo.scenario in
  let stored := [RawExclusion.mk "5" (PStr "too heavy")] in
  let w := {| cache := {["k" := ("P", stored)]}; trace := [] |} in
  get_excluded_shipping_data "ev" [Demo.ESM_of "5" (PStr "closed")]
    (fun _ => "P") "k" w
  = (Ok [Demo.ESM_of "5" (PStr "too heavy closed")],
     {| cache := cache w; trace := [PayloadFun "P"; CacheGet "k"] |}).
Proof.
  intros H stored w.
  assert (Hsome : _get_webhooks_for_event "ev" <> []) by discriminate.
  rewrite (shipping_data_from_cache (H := H) "ev" "k"
             [Demo.ESM_of "5" (PStr "closed")] (fun _ => "P") stored w
             Hsome eq_refl).
  reflexivity.
Defined.

(** X15: however [get_excluded_shipping_data] ends: a list it returns has no
    id twice and no empty reason (a reason is [None] or a text that is not
    empty); an exception that leaves it is [TypeError] or
    [AttributeError]. *)
Theorem shipping_data_outcomes `{Collaborators}
    (event_type cache_key : string) (previous_value : list ESM)
    (payload_fun : World -> string) (w : World) :
  match fst (get_excluded_shipping_data event_type previous_value payload_fun
               cache_key w) with
  | Ok out =>
      NoDup (ids out)
      /\ Forall (fun m =>
                   ExcludedShippingMethod.reason m = PNone
                   \/ exists s, ExcludedShippingMethod.reason m = PStr s
                        /\ s <> "") out
  | Raise e => e = TypeError \/ e = AttributeError
  end.
Proof.
  assert (Hmerge : forall raw,
             match merge_excluded (parse_excluded_shipping_methods raw)
                     previous_value with
             | Ok out =>
                 NoDup (ids out)
                 /\ Forall (fun m =>
                              ExcludedShippingMethod.reason m = PNone
                              \/ exists s,
                                   ExcludedShippingMethod.reason m = PStr s
                                   /\ s <> "") out
             | Raise e => e = TypeError \/ e = AttributeError
             end).
  { intros raw.
    pose proof (merge_excluded_cases (parse_excluded_shipping_methods raw)
                  previous_value) as Hcases.
    destruct (merge_excluded _ previous_value) as [out|e]; [|by left].
    destruct Hcases as [Hids Hall]. split; [|exact Hall].
    rewrite Hids. apply NoDup_keys_gather_previous, NoDup_keys_parse. }
  rewrite get_excluded_shipping_data_run.
  destruct (_get_webhooks_for_event event_type) as [|webhook rest].
  { exact (Hmerge []). }
  pose proof (or_fetch_run (webhook :: rest) event_type (payload_fun w)
                cache_key (log (PayloadFun (payload_fun w)) w))
    as (called & responses & written & _ & _ & _ & _ & Hend).
  destruct (get_excluded_shipping_methods_or_fetch _ _ _ _ _) as [[m|e] w'];
    simpl in *.
  - destruct Hend as (raw & -> & _). apply Hmerge.
  - destruct Hend as [[->| ->] _]; auto.
Qed.

(** X16: [get_excluded_shipping_data] calls [payload_fun] once when the
    event has subscribers and not at all when it has none, whatever
    happens next. *)
Theorem payload_fun_called_at_most_once `{Collaborators}
    (event_type cache_key : string) (previous_value : list ESM)
    (payload_fun : World -> string) (w : World) :
  payload_calls
    (trace (snd (get_excluded_shipping_data event_type previous_value
                   payload_fun cache_key w)))
  = payload_calls (trace w)
    + match _get_webhooks_for_event event_type with
      | [] => 0
      | _ :: _ => 1
      end.
Proof.
  rewrite get_excluded_shipping_data_run.
  destruct (_get_webhooks_for_event event_type) as [|webhook rest].
  { simpl. lia. }
  pose proof (or_fetch_run (webhook :: rest) event_type (payload_fun w)
                cache_key (log (PayloadFun (payload_fun w)) w))
    as (called & responses & written & _ & _ & Htrace & _).
  assert (Hsnd : forall (r : result methods_map * World),
             snd (let '(x, w') := r in
                  match x with
                  | Ok m => (merge_excluded m previous_value, w')
                  | Raise e => (Raise e, w')
                  end) = snd r).
  { intros [[m|e] w']; reflexivity. }
  rewrite Hsnd, Htrace. unfold payload_calls, log. simpl.
  rewrite !List.filter_app, !length_app. simpl.
  rewrite !List.filter_app, (filter_webhook_events is_payload_call) by done.
  destruct written; simpl; lia.
Qed.

(** X17: when the body given to [parse_list_shipping_methods_response] is
    not a list: a value that cannot be iterated raises [TypeError]; a text
    or a mapping is iterated, so an empty one gives no method and any other
    raises [AttributeError] at its first item, which is a text. *)
Theorem list_shipping_methods_not_a_list `{Collaborators}
    (response_data : pyval) (a : App) :
  (forall records, response_data <> PList records) ->
  parse_list_shipping_methods_response response_data a
  = match response_data with
    | PStr "" | PDict [] => Ok []
    | PStr _ | PDict _ => Raise AttributeError
    | _ => Raise TypeError
    end.
Proof.
  intros Hnot. unfold parse_list_shipping_methods_response.
  destruct response_data as [|b|z|s|l|d]; try reflexivity.
  - by destruct s.
  - by destruct (Hnot l).
  - by destruct d.
Qed.

Lemma list_shipping_methods_not_a_list_witness :
  let H := Demo.scenario in
  (forall records, PDict [("id", PStr "dhl")] <> PList records)
  /\ parse_list_shipping_methods_response (PDict [("id", PStr "dhl")]) Demo.app1
     = Raise AttributeError.
Proof.
  intros H.
  assert (Hnot : forall records, PDict [("id", PStr "dhl")] <> PList records)
    by discriminate.
  split; [exact Hnot|].
  exact (list_shipping_methods_not_a_list (H := H) _ Demo.app1 Hnot).
Defined.
